(** * Codex: the web application entry point (codex.ts) and its helpers

    A shallow embedding of [web/src/codex.ts] and [web/src/utils/strings.ts].
    JavaScript strings are modelled as [string]; the only characters the
    code inspects (newline, '#', '?', '_' and the ASCII letters) are single
    bytes in every encoding that extends ASCII. *)

From Stdlib Require Import Ascii String List Bool Arith ZArith Lia DecimalString.
From stdpp Require Import base option gmap strings list fin_maps.

Set Warnings "-register-all".

(** stdpp blocks the unfolding of string concatenation; the proofs below
    compute with it. *)
#[local] Arguments String.append !_ _ / : simpl nomatch.

(** ** utils/strings.ts *)

Module Strings.

Definition newline : ascii := "010"%char.

(** [text.replace(/\n/g, '<br/>')]: the global flag makes the replacement
    scan the whole input once, left to right; replaced text is not rescanned. *)
Fixpoint newlineToBr (text : string) : string :=
  match text with
  | EmptyString => EmptyString
  | String c rest =>
      if Ascii.eqb c newline then "<br/>" +:+ newlineToBr rest
      else String c (newlineToBr rest)
  end.

(** Number of newline characters of a string. *)
Fixpoint count_newlines (s : string) : nat :=
  match s with
  | EmptyString => 0
  | String c rest => (if Ascii.eqb c newline then 1 else 0) + count_newlines rest
  end.

(** [s.split(sep)] for a one-character separator: never empty, the pieces
    contain no separator. *)
Fixpoint split_on (sep : ascii) (s : string) : list string :=
  match s with
  | EmptyString => [EmptyString]
  | String c rest =>
      if Ascii.eqb c sep then EmptyString :: split_on sep rest
      else match split_on sep rest with
           | [] => [String c EmptyString]
           | w :: ws => String c w :: ws
           end
  end.

(** [words.join(sep)] *)
Fixpoint join (sep : string) (words : list string) : string :=
  match words with
  | [] => EmptyString
  | [w] => w
  | w :: ws => w +:+ sep +:+ join sep ws
  end.

Definition is_lower (c : ascii) : bool :=
  let n := nat_of_ascii c in (97 <=? n) && (n <=? 122).

Definition is_upper (c : ascii) : bool :=
  let n := nat_of_ascii c in (65 <=? n) && (n <=? 90).

(** [toUpperCase] / [toLowerCase] on the ASCII letters; other bytes are
    left as they are. *)
Definition toUpperCase_char (c : ascii) : ascii :=
  if is_lower c then ascii_of_nat (nat_of_ascii c - 32) else c.

Definition toLowerCase_char (c : ascii) : ascii :=
  if is_upper c then ascii_of_nat (nat_of_ascii c + 32) else c.

Fixpoint toLowerCase (s : string) : string :=
  match s with
  | EmptyString => EmptyString
  | String c rest => String (toLowerCase_char c) (toLowerCase rest)
  end.

(** [word.charAt(0).toUpperCase() + word.slice(1).toLowerCase()] *)
Definition capitalise (word : string) : string :=
  match word with
  | EmptyString => EmptyString
  | String c rest => String (toUpperCase_char c) (toLowerCase rest)
  end.

(** [id.split('_').map(...).join(' ')] *)
Definition niceify (id : string) : string :=
  join " " (map capitalise (split_on "_"%char id)).

End Strings.

(** ** The script values and the Interpolator (story.ts, section.ts)

    The engine sources are not part of the files verified here; the
    Interpolator below follows the written specification of the engine. *)

Module ScopeManager.

(** The values that cross the script bridge. *)
Inductive Value : Type :=
| VNil
| VBoolean (b : bool)
| VNumber (n : Z)
| VString (s : string)
| VList (items : list Value)
| VMapping (entries : list (string * Value)).

End ScopeManager.

Module Interpolator.
Import ScopeManager.

Section Render.

(** The script engine is an external capability: evaluation of an expression
    against a scope view either yields a value or a script fault. *)
Context {ScopeView ScriptFault : Type}.
Variable evaluate : ScopeView -> string -> ScriptFault + Value.
(** The script engine's native textual form of a value. *)
Variable stringify : Value -> string.
(** The diagnostic marker put in place of a failing placeholder. *)
Variable diagnostic : string -> ScriptFault -> string.

(** Modelled from the spec: what one placeholder is replaced with (story.ts
    is missing): the stringified result, or the diagnostic marker when the
    evaluation fails. *)
Definition substitute (scopes : ScopeView) (expr : string) : string :=
  match evaluate scopes expr with
  | inr v => stringify v
  | inl fault => diagnostic expr fault
  end.

(** Modelled from the spec: the placeholder scan of [render] (story.ts is
    missing). [pending] is the expression text read since an opening brace;
    an opening brace that is never closed is left in the text as it is. *)
Fixpoint scan (scopes : ScopeView) (template : string) (pending : option string)
  : string :=
  match template, pending with
  | EmptyString, None => EmptyString
  | EmptyString, Some expr => String "{" expr
  | String c rest, None =>
      if Ascii.eqb c "{" then scan scopes rest (Some EmptyString)
      else String c (scan scopes rest None)
  | String c rest, Some expr =>
      if Ascii.eqb c "}" then substitute scopes expr +:+ scan scopes rest None
      else scan scopes rest (Some (expr +:+ String c EmptyString))
  end.

(** Modelled from the spec: [render(template, scopes)] (story.ts is missing). *)
Definition render (template : string) (scopes : ScopeView) : string :=
  scan scopes template None.

(** The character does not occur in the string. *)
Fixpoint free_of (c : ascii) (s : string) : bool :=
  match s with
  | EmptyString => true
  | String d rest => negb (Ascii.eqb d c) && free_of c rest
  end.

End Render.

End Interpolator.

(** ** codex.ts: the Alpine application *)

(** JavaScript truthiness of a possibly missing string: [undefined], [null]
    and the empty string are falsy. *)
Definition truthy (o : option string) : option string :=
  match o with
  | Some s => if String.eqb s "" then None else Some s
  | None => None
  end.

(** The [Result] of [Option.execute()]. *)
Module Result.
Record t : Type := mk {
  confirmMsg : option string;
  nextSectionId : option string;
  notifyMsg : option string
}.
End Result.

(** What the browser provides and the code calls without defining it. *)
Class Browser : Type := {
  JsValue : Type;
  (** the object literal [{}] *)
  emptyObject : JsValue;
  (** [JSON.parse(text)]; [None] when it throws *)
  JSON_parse : string -> option JsValue;
  JSON_stringify : JsValue -> string;
  (** [Object.is(a, b)], the comparison a reactive property makes when it is
      assigned: objects by identity, primitive values by value *)
  Object_is : JsValue -> JsValue -> bool;
  (** [new URLSearchParams(search).get(name)] *)
  URLSearchParams_get : string -> string -> option string
}.

(** The story engine ([Story], [Section], [Option] of web/src/codex/), as the
    application uses it. The story is one mutable object: every operation
    that can run script code takes the story and gives the story back, also
    when it throws. The lookup [getSection] and the getters read the story
    and neither change it nor throw. *)
Class StoryEngine {B : Browser} : Type := {
  StoryT : Type;
  SectionT : Type;
  OptionT : Type;
  ScriptFault : Type;
  (** [await Story.parse(url)]: the story, or the rejection *)
  Story_parse : string -> ScriptFault + StoryT;
  story_title : StoryT -> string;
  (** [story.getSection(id): Section | undefined] *)
  getSection : StoryT -> string -> option SectionT;
  section_id : SectionT -> string;
  (** the getters [section.text] and [section.options] *)
  section_text : StoryT -> SectionT -> string;
  section_options : StoryT -> SectionT -> list (string * OptionT);
  (** [section.visit()] *)
  visit : SectionT -> StoryT -> StoryT * option ScriptFault;
  getState : StoryT -> JsValue;
  setState : JsValue -> StoryT -> StoryT * option ScriptFault;
  (** [option.execute()] *)
  execute : OptionT -> StoryT -> StoryT * (ScriptFault + Result.t);
  (** [story.trigger(eventId, ...args)] *)
  trigger : string -> list string -> StoryT -> StoryT * (ScriptFault + string)
}.

Inductive ConsoleEntry : Type :=
| ConsoleLog (msg : string)
| ConsoleError (msg : string).

(** The part of the browser the application reads and writes. *)
Record Env : Type := mkEnv {
  localStorage : gmap string string;
  (** [window.location.href] of the document *)
  href : string;
  (** the URL the window was told to load by [window.location.href = url] *)
  navigation : option string;
  documentTitle : string;
  (** console output, oldest entry first *)
  console : list ConsoleEntry;
  notifyDialogOpen : bool;
  confirmDialogOpen : bool
}.

(** *** The fragment a URL parser makes of '#' followed by a text

    The parser strips trailing C0 control characters and spaces from its
    input, drops every tab and newline, and percent-encodes in the fragment
    the C0 controls, everything above '~', the space and the characters
    double quote, less-than, greater-than and backtick. Strings are read as
    UTF-8 here: a character above '~' is its bytes, each encoded. *)

Definition is_c0_or_space (c : ascii) : bool := nat_of_ascii c <=? 32.

Definition is_tab_or_newline (c : ascii) : bool :=
  let n := nat_of_ascii c in (n =? 9) || (n =? 10) || (n =? 13).

Definition in_fragment_encode_set (c : ascii) : bool :=
  let n := nat_of_ascii c in
  (n <=? 32) || (126 <? n) || (n =? 34) || (n =? 60) || (n =? 62) || (n =? 96).

Definition hex_digit (n : nat) : ascii :=
  if n <? 10 then ascii_of_nat (48 + n) else ascii_of_nat (55 + n).

(** '%' and the two upper-case hexadecimal digits of the byte. *)
Definition percent_encode (c : ascii) : string :=
  let n := nat_of_ascii c in
  String "%" (String (hex_digit (n / 16)) (String (hex_digit (n mod 16)) EmptyString)).

(** The text without its trailing C0 controls and spaces. *)
Fixpoint strip_trailing (s : string) : string :=
  match s with
  | EmptyString => EmptyString
  | String c rest =>
      match strip_trailing rest with
      | EmptyString => if is_c0_or_space c then EmptyString else String c EmptyString
      | kept => String c kept
      end
  end.

Fixpoint encode_chars (s : string) : string :=
  match s with
  | EmptyString => EmptyString
  | String c rest =>
      if is_tab_or_newline c then encode_chars rest
      else if in_fragment_encode_set c then percent_encode c +:+ encode_chars rest
      else String c (encode_chars rest)
  end.

(** The fragment of the URL parsed from '#' followed by [text]. *)
Definition encode_fragment (text : string) : string :=
  encode_chars (strip_trailing text).

(** The text is a fragment as it stands: printable ASCII without space,
    double quote, less-than, greater-than and backtick. *)
Fixpoint fragment_safe (s : string) : bool :=
  match s with
  | EmptyString => true
  | String c rest => negb (in_fragment_encode_set c) && fragment_safe rest
  end.

(** The text of a URL before its first '#': [href.split('#')[0]]. *)
Fixpoint before_hash (url : string) : string :=
  match url with
  | EmptyString => EmptyString
  | String c rest => if Ascii.eqb c "#" then EmptyString else String c (before_hash rest)
  end.

(** The text after the first '#' of a URL, empty when there is none. *)
Fixpoint fragment (url : string) : string :=
  match url with
  | EmptyString => EmptyString
  | String c rest => if Ascii.eqb c "#" then rest else fragment rest
  end.

(** [window.location.hash]: empty, or '#' followed by a non-empty fragment. *)
Definition location_hash (url : string) : string :=
  match fragment url with
  | EmptyString => EmptyString
  | String c rest => String "#" (String c rest)
  end.

(** [s.slice(1)] *)
Definition slice1 (s : string) : string :=
  match s with
  | EmptyString => EmptyString
  | String _ rest => rest
  end.

(** The text from the first '?' on, of a text without '#'. *)
Fixpoint from_question (s : string) : string :=
  match s with
  | EmptyString => EmptyString
  | String c rest => if Ascii.eqb c "?" then s else from_question rest
  end.

(** [window.location.search]: empty, or '?' followed by a non-empty query. *)
Definition location_search (url : string) : string :=
  match from_question (before_hash url) with
  | String _ EmptyString => EmptyString
  | q => q
  end.

Section App.
Context {B : Browser} {E : StoryEngine}.

(** The [section] field of the application state. The options are the
    engine's [Option] objects themselves, held by reference. *)
Record SectionView : Type := mkSectionView {
  view_id : string;
  view_title : string;
  view_text : string;
  view_options : list (string * OptionT)
}.

(** The object given to [Alpine.data('appState', ...)]. [_confirmResolve] is
    [true] while the resolver of a pending [confirm] promise is stored;
    [stateWatched] is [true] once [$watch('state', ...)] has been registered;
    [statePending] is the value the watcher's callback has been queued with
    and not yet called. *)
Record AppState : Type := mkAppState {
  title : string;
  section : SectionView;
  state : JsValue;
  loaded : bool;
  sheetVisible : bool;
  notifyMsg : string;
  confirmMsg : string;
  _confirmResolve : bool;
  stateWatched : bool;
  statePending : option JsValue
}.

(** The document before the story is loaded. *)
Record Page : Type := mkPage {
  page_app : AppState;
  page_env : Env
}.

(** The document once the module variable [story] is assigned. *)
Record World : Type := mkWorld {
  app : AppState;
  env : Env;
  story : StoryT
}.

(** Completion of a synchronous method. *)
Inductive Completion : Type :=
| Normal (w : World)
| Abrupt (w : World) (e : ScriptFault).

(** State of the promise of an [async] method: fulfilled, rejected, or
    suspended at [await this.confirm(...)] with the rest of the method. *)
Inductive Async : Type :=
| Done (w : World)
| Rejected (w : World) (e : ScriptFault)
| Await (w : World) (k : bool -> World -> Async).

Inductive InitOutcome : Type :=
| NoStoryUrl (p : Page)
| ParseRejected (p : Page) (e : ScriptFault)
| SectionThrew (w : World) (e : ScriptFault)
| Started (w : World).

(** *** Field updates *)

Definition set_env (f : Env -> Env) (w : World) : World :=
  mkWorld (app w) (f (env w)) (story w).

Definition set_app (f : AppState -> AppState) (w : World) : World :=
  mkWorld (f (app w)) (env w) (story w).

Definition set_story (st : StoryT) (w : World) : World :=
  mkWorld (app w) (env w) st.

Definition removeItem (key : string) (e : Env) : Env :=
  mkEnv (delete key (localStorage e)) (href e) (navigation e) (documentTitle e)
        (console e) (notifyDialogOpen e) (confirmDialogOpen e).

Definition setItem (key value : string) (e : Env) : Env :=
  mkEnv (<[key := value]> (localStorage e)) (href e) (navigation e)
        (documentTitle e) (console e) (notifyDialogOpen e) (confirmDialogOpen e).

(** [window.location.href = url]: the window starts loading [url]. *)
Definition location_assign (url : string) (e : Env) : Env :=
  mkEnv (localStorage e) (href e) (Some url) (documentTitle e) (console e)
        (notifyDialogOpen e) (confirmDialogOpen e).

(** [window.history.replaceState(null, '', '#' + id)]: '#' followed by the
    id is parsed against the document's URL, whose fragment is replaced by
    the parsed one; nothing is loaded. *)
Definition replaceState_hash (id : string) (e : Env) : Env :=
  mkEnv (localStorage e) (before_hash (href e) +:+ "#" +:+ encode_fragment id)
        (navigation e)
        (documentTitle e) (console e) (notifyDialogOpen e) (confirmDialogOpen e).

Definition set_documentTitle (t : string) (e : Env) : Env :=
  mkEnv (localStorage e) (href e) (navigation e) t (console e)
        (notifyDialogOpen e) (confirmDialogOpen e).

Definition console_add (entry : ConsoleEntry) (e : Env) : Env :=
  mkEnv (localStorage e) (href e) (navigation e) (documentTitle e)
        (console e ++ [entry]) (notifyDialogOpen e) (confirmDialogOpen e).

Definition set_notifyDialogOpen (b : bool) (e : Env) : Env :=
  mkEnv (localStorage e) (href e) (navigation e) (documentTitle e) (console e)
        b (confirmDialogOpen e).

Definition set_confirmDialogOpen (b : bool) (e : Env) : Env :=
  mkEnv (localStorage e) (href e) (navigation e) (documentTitle e) (console e)
        (notifyDialogOpen e) b.

Definition set_title (t : string) (a : AppState) : AppState :=
  mkAppState t (section a) (state a) (loaded a) (sheetVisible a) (notifyMsg a)
             (confirmMsg a) (_confirmResolve a) (stateWatched a)
             (statePending a).

Definition set_section (v : SectionView) (a : AppState) : AppState :=
  mkAppState (title a) v (state a) (loaded a) (sheetVisible a) (notifyMsg a)
             (confirmMsg a) (_confirmResolve a) (stateWatched a)
             (statePending a).

Definition set_state (v : JsValue) (a : AppState) : AppState :=
  mkAppState (title a) (section a) v (loaded a) (sheetVisible a) (notifyMsg a)
             (confirmMsg a) (_confirmResolve a) (stateWatched a)
             (statePending a).

Definition set_loaded (b : bool) (a : AppState) : AppState :=
  mkAppState (title a) (section a) (state a) b (sheetVisible a) (notifyMsg a)
             (confirmMsg a) (_confirmResolve a) (stateWatched a)
             (statePending a).

Definition set_notifyMsg (m : string) (a : AppState) : AppState :=
  mkAppState (title a) (section a) (state a) (loaded a) (sheetVisible a) m
             (confirmMsg a) (_confirmResolve a) (stateWatched a)
             (statePending a).

Definition set_confirmMsg (m : string) (a : AppState) : AppState :=
  mkAppState (title a) (section a) (state a) (loaded a) (sheetVisible a)
             (notifyMsg a) m (_confirmResolve a) (stateWatched a)
             (statePending a).

Definition set_confirmResolve (b : bool) (a : AppState) : AppState :=
  mkAppState (title a) (section a) (state a) (loaded a) (sheetVisible a)
             (notifyMsg a) (confirmMsg a) b (stateWatched a) (statePending a).

Definition set_stateWatched (b : bool) (a : AppState) : AppState :=
  mkAppState (title a) (section a) (state a) (loaded a) (sheetVisible a)
             (notifyMsg a) (confirmMsg a) (_confirmResolve a) b (statePending a).

Definition set_statePending (p : option JsValue) (a : AppState) : AppState :=
  mkAppState (title a) (section a) (state a) (loaded a) (sheetVisible a)
             (notifyMsg a) (confirmMsg a) (_confirmResolve a) (stateWatched a) p.

End App.

Section Methods.
Context {B : Browser} {E : StoryEngine}.

(** [this.state = v]. The reactive property compares the assigned value
    with the one it holds and triggers its effects only when they differ;
    the watcher of [init], once registered, then queues its callback with
    the new value. The callback is not run here: it is a microtask. *)
Definition assign_state (v : JsValue) (w : World) : World :=
  let w' := set_app (set_state v) w in
  if stateWatched (app w) && negb (Object_is v (state (app w)))
  then set_app (set_statePending (Some v)) w'
  else w'.

(** codex.ts, lines 76-78: the microtasks run when the synchronous code has
    returned; the queued callback of the watcher writes the value it was
    queued with to [localStorage] under 'codex_state'. *)
Definition runMicrotasks (w : World) : World :=
  match statePending (app w) with
  | Some newState =>
      set_env (setItem "codex_state" (JSON_stringify newState))
        (set_app (set_statePending None) w)
  | None => w
  end.

(** codex.ts, lines 147-150 *)
Definition notify (message : string) (w : World) : World :=
  set_env (set_notifyDialogOpen true)
    (set_app (set_notifyMsg (Strings.newlineToBr message)) w).

(** codex.ts, lines 152-158: the world when the promise has been created;
    the promise itself is the [Await] of the calling method. *)
Definition confirm (message : string) (w : World) : World :=
  set_env (set_confirmDialogOpen true)
    (set_app (set_confirmResolve true)
       (set_app (set_confirmMsg (Strings.newlineToBr message)) w)).

(** codex.ts, lines 160-166: the new world, and the value the pending
    promise is resolved with, if a resolver was stored. *)
Definition confirmResult (confirmed : bool) (w : World) : World * option bool :=
  let w' := set_env (set_confirmDialogOpen false) w in
  if _confirmResolve (app w')
  then (set_app (set_confirmResolve false) w', Some confirmed)
  else (w', None).

(** codex.ts, lines 84-109. The title shown is exact for ids of ASCII
    characters (see [Strings]). *)
Definition gotoSection (sectionId : string) (w : World) : Completion :=
  if String.eqb sectionId "restart" then
    Normal (set_env (location_assign (before_hash (href (env w))))
              (set_env (removeItem "codex_state") w))
  else
    match getSection (story w) sectionId with
    | None => Normal (set_env (console_add (ConsoleError ("Section not found: " +:+ sectionId))) w)
    | Some sec =>
        let '(st, thrown) := visit sec (story w) in
        let w1 := set_story st w in
        match thrown with
        | Some e => Abrupt w1 e
        | None =>
            let w2 := assign_state (getState st) w1 in
            let w3 := set_app (set_section
                        (mkSectionView (section_id sec)
                           (Strings.niceify (section_id sec))
                           (Strings.newlineToBr (section_text st sec))
                           (section_options st sec))) w2 in
            Normal (set_env (replaceState_hash sectionId) w3)
        end
    end.

(** codex.ts, lines 121-127: what [takeOption] does after the confirmation. *)
Definition takeOption_effects (result : Result.t) (w : World) : Async :=
  let moved :=
    match truthy (Result.nextSectionId result) with
    | Some next => gotoSection next w
    | None => Normal w
    end in
  match moved with
  | Abrupt w' e => Rejected w' e
  | Normal w' =>
      match truthy (Result.notifyMsg result) with
      | Some msg => Done (notify msg w')
      | None => Done w'
      end
  end.

(** codex.ts, lines 114-128 *)
Definition takeOption (option : OptionT) (w : World) : Async :=
  let '(st, r) := execute option (story w) in
  let w1 := set_story st w in
  match r with
  | inl e => Rejected w1 e
  | inr result =>
      match truthy (Result.confirmMsg result) with
      | Some msg => Await (confirm msg w1) (fun _ w' => takeOption_effects result w')
      | None => takeOption_effects result w1
      end
  end.

(** The text appended to the message of an event confirmation. *)
Definition areYouSure : string :=
  String Strings.newline (String Strings.newline "Are you sure?").

(** codex.ts, lines 133-143 *)
Definition triggerEvent (msg eventId : string) (args : list string) (w : World)
  : Async :=
  Await (confirm (msg +:+ areYouSure) w)
    (fun res w' =>
       if negb res then Done w'
       else
         let '(st, r) := trigger eventId args (story w') in
         let w1 := set_story st w' in
         match r with
         | inl e => Rejected w1 e
         | inr message => Done (notify message (assign_state (getState st) w1))
         end).

(** The user answers the open confirmation dialog: the dialog's button calls
    [confirmResult], and the suspended method continues with the answer. *)
Definition answer (confirmed : bool) (a : Async) : Async :=
  match a with
  | Await w k =>
      match confirmResult confirmed w with
      | (w', Some res) => k res w'
      | (w', None) => Await w' k
      end
  | _ => a
  end.

(** The world a synchronous method leaves. *)
Definition world_after (c : Completion) : World :=
  match c with
  | Normal w | Abrupt w _ => w
  end.

(** The world an [async] method has reached. *)
Definition world_of (a : Async) : World :=
  match a with
  | Done w | Rejected w _ | Await w _ => w
  end.

(** codex.ts, lines 56-65: the saved state is read and given to the story. *)
Definition loadSavedState (w : World) : World :=
  match truthy (localStorage (env w) !! "codex_state") with
  | None => w
  | Some savedState =>
      match JSON_parse savedState with
      | None =>
          set_env (console_add
            (ConsoleError "Failed to parse saved state from localStorage:")) w
      | Some stateObj =>
          let '(st, thrown) := setState stateObj (story w) in
          let w1 := set_story st w in
          match thrown with
          | None =>
              set_env (console_add
                (ConsoleLog "Restored saved state from localStorage:")) w1
          | Some _ =>
              set_env (console_add
                (ConsoleError "Failed to parse saved state from localStorage:")) w1
          end
      end
  end.

(** codex.ts, lines 68-78: the story is shown and the watcher registered. *)
Definition launch (startSectionId : string) (w : World) : InitOutcome :=
  let w1 := set_app (set_title (story_title (story w))) w in
  let w2 := set_env (set_documentTitle (title (app w1))) w1 in
  let w3 := set_env (console_add
              (ConsoleLog ("Loaded story: " +:+ story_title (story w2)))) w2 in
  match gotoSection startSectionId w3 with
  | Abrupt w4 e => SectionThrew w4 e
  | Normal w4 =>
      Started (set_app (set_stateWatched true) (set_app (set_loaded true) w4))
  end.

(** codex.ts, lines 46-50 *)
Definition startSectionId_of (url : string) : string :=
  let anchor := slice1 (location_hash url) in
  if String.eqb anchor "" then "start" else anchor.

(** codex.ts, lines 33-79 *)
Definition init (p : Page) : InitOutcome :=
  match truthy (URLSearchParams_get (location_search (href (page_env p))) "story") with
  | None =>
      NoStoryUrl (mkPage (page_app p)
        (console_add (ConsoleError "No story URL specified") (page_env p)))
  | Some storyUrl =>
      let p1 := mkPage (page_app p)
                  (console_add (ConsoleLog ("Hello " +:+ storyUrl)) (page_env p)) in
      match Story_parse storyUrl with
      | inl e => ParseRejected p1 e
      | inr st =>
          let w := mkWorld (page_app p1) (page_env p1) st in
          let startSectionId := startSectionId_of (href (env w)) in
          let w1 :=
            if String.eqb startSectionId "start"
            then set_env (removeItem "codex_state") w
            else loadSavedState w in
          launch startSectionId w1
      end
  end.

(** The object [Alpine.data] creates for a new document. *)
Definition freshApp : AppState :=
  mkAppState "" (mkSectionView "" "Loading..."
                   "Please wait while the story loads..." [])
             emptyObject false true "" "" false false None.

(** The document the window shows after loading [url]: storage is kept,
    everything else starts anew. *)
Definition loadPage (url : string) (storage : gmap string string) : Page :=
  mkPage freshApp (mkEnv storage url None "" [] false false).

(** The window follows the navigation requested by the current document, and
    the new document runs [init]. *)
Definition followNavigation (w : World) : option InitOutcome :=
  match navigation (env w) with
  | Some url => Some (init (loadPage url (localStorage (env w))))
  | None => None
  end.

End Methods.

(** ** A small story: an instance of the browser and of the engine

    A story with a purse of gold, two ordinary sections, a vault whose
    run-code fills the purse, a section whose run-code fails half-way and a
    section that the author named 'restart'; it serves to run the
    application on concrete inputs. *)

Module Cave.

(** [JSON.parse] and [JSON.stringify] on the states of this story, which are
    plain numbers. *)
Definition parse_number (s : string) : option nat :=
  match NilEmpty.uint_of_string s with
  | Some d => if String.eqb s "" then None else Some (Nat.of_uint d)
  | None => None
  end.

Definition print_number (n : nat) : string :=
  NilEmpty.string_of_uint (Nat.to_uint n).

Definition query_get (search name : string) : option string :=
  if String.eqb name "story" && String.prefix "?story=" search
  then Some (String.substring 7 (String.length search - 7) search)
  else None.

#[export] Instance browser : Browser := {
  JsValue := nat;
  emptyObject := 0;
  JSON_parse := parse_number;
  JSON_stringify := print_number;
  Object_is := Nat.eqb;
  URLSearchParams_get := query_get
}.

Record purse : Type := mkPurse { gold : nat; visits : nat }.

Inductive choice : Type :=
| Dig      (** run: gold = gold + 5; confirm, goto cave, notify *)
| Buy      (** run: gold = gold - 5; confirm only *)
| Rest     (** notify only *)
| Cursed.  (** run-code fails after the gold is gone *)

Definition run_choice (c : choice) (st : purse) : purse * (string + Result.t) :=
  match c with
  | Dig => (mkPurse (gold st + 5) (visits st),
            inr (Result.mk (Some "Dig here?") (Some "cave") (Some "You found gold!")))
  | Buy => (mkPurse (gold st - 5) (visits st),
            inr (Result.mk (Some "Buy the lamp?") None None))
  | Rest => (st, inr (Result.mk None None (Some "You rest.")))
  | Cursed => (mkPurse 0 (visits st), inl "attempt to call a nil value")
  end.

Definition lookup_section (st : purse) (id : string) : option string :=
  if String.eqb id "start" || String.eqb id "cave" || String.eqb id "trap"
     || String.eqb id "restart" || String.eqb id "vault"
     || String.eqb id "dark cave"
  then Some id else None.

Definition enter (sec : string) (st : purse) : purse * option string :=
  if String.eqb sec "trap"
  then (mkPurse 0 (visits st), Some "attempt to index a nil value")
  else if String.eqb sec "vault"
  then (mkPurse (gold st + 100) (S (visits st)), None)
  else (mkPurse (gold st) (S (visits st)), None).

Definition options_of (st : purse) (sec : string) : list (string * choice) :=
  if String.eqb sec "start" then [("dig", Dig); ("rest", Rest)]
  else [("buy", Buy)].

Definition load (url : string) : string + purse :=
  if String.eqb url "cave.yaml" then inr (mkPurse 10 0)
  else inl "story not found".

Definition fire (eventId : string) (args : list string) (st : purse)
  : purse * (string + string) :=
  if String.eqb eventId "drink"
  then (mkPurse (gold st + 1) (visits st), inr "You feel better.")
  else if String.eqb eventId "look"
  then (st, inr "Nothing here.")
  else (st, inl "unknown event").

#[export] Instance engine : StoryEngine := {
  StoryT := purse;
  SectionT := string;
  OptionT := choice;
  ScriptFault := string;
  Story_parse := load;
  story_title := fun _ => "The Cave";
  getSection := lookup_section;
  section_id := fun sec => sec;
  section_text := fun st sec => "You are in " +:+ sec +:+ ".";
  section_options := options_of;
  visit := enter;
  getState := gold;
  setState := fun v st => (mkPurse v (visits st), None);
  execute := run_choice;
  trigger := fire
}.

(** The document at '...?story=cave.yaml#cave' with a saved state. *)
Definition savedPage : Page :=
  loadPage "http://localhost/sys/ff/?story=cave.yaml#cave" {["codex_state" := "42"]}.

(** The same with a saved state that is not JSON. *)
Definition brokenPage : Page :=
  loadPage "http://localhost/sys/ff/?story=cave.yaml#cave" {["codex_state" := "{oops"]}.

(** The document at '...?story=cave.yaml' without anchor. *)
Definition startPage : Page :=
  loadPage "http://localhost/sys/ff/?story=cave.yaml" {["codex_state" := "42"]}.

(** A running session: the story is loaded, the start section is shown. *)
Definition session : World :=
  match init startPage with
  | Started w => w
  | _ => mkWorld freshApp (page_env startPage) (mkPurse 10 0)
  end.

(** The session after the player has dug and confirmed: the cave is shown
    and the state has been saved. *)
Definition played : World :=
  runMicrotasks (world_of (answer true (takeOption Dig session))).

(** The session after a purchase in the cave: the purse is lighter, the
    state shown and the saved state are still the earlier ones. *)
Definition bought : World :=
  runMicrotasks (world_of (answer true (takeOption Buy played))).

(** A script engine that knows one sum and one variable. *)
Definition calc (scopes : purse) (expr : string) : string + ScopeManager.Value :=
  if String.eqb expr "1+1" then inr (ScopeManager.VNumber 2)
  else if String.eqb expr "gold" then inr (ScopeManager.VNumber (Z.of_nat (gold scopes)))
  else inl "attempt to perform arithmetic on a nil value".

Definition tostring (v : ScopeManager.Value) : string :=
  match v with
  | ScopeManager.VNil => "nil"
  | ScopeManager.VBoolean b => if b then "true" else "false"
  | ScopeManager.VNumber n => print_number (Z.to_nat n)
  | ScopeManager.VString s => s
  | ScopeManager.VList _ | ScopeManager.VMapping _ => "table"
  end.

Definition marker (expr fault : string) : string :=
  "[error in " +:+ expr +:+ "]".

End Cave.

(** ** A session: the user's actions, each run to completion

    The page calls [takeOption] when an option is chosen and [triggerEvent]
    from the character sheet; while the confirmation dialog is open (it is
    modal) the only thing the user can do is to answer it. *)

Section Session.
Context {B : Browser} {E : StoryEngine}.

Inductive UserAction : Type :=
| Choose (option : OptionT) (confirmed : bool)
| Trigger (msg eventId : string) (args : list string) (confirmed : bool).

(** The world when the method started by the action has settled and the
    microtasks have run. *)
Definition perform (a : UserAction) (w : World) : World :=
  runMicrotasks
    match a with
    | Choose option confirmed => world_of (answer confirmed (takeOption option w))
    | Trigger msg eventId args confirmed =>
        world_of (answer confirmed (triggerEvent msg eventId args w))
    end.

Definition session_after (actions : list UserAction) (w : World) : World :=
  fold_left (fun w a => perform a w) actions w.

(** The promise is pending. *)
Definition is_suspended (a : Async) : bool :=
  match a with
  | Await _ _ => true
  | _ => false
  end.

(** What no method changes once the story is launched. *)
Definition same_document (w w' : World) : Prop :=
  title (app w') = title (app w)
  /\ loaded (app w') = loaded (app w)
  /\ sheetVisible (app w') = sheetVisible (app w)
  /\ stateWatched (app w') = stateWatched (app w)
  /\ documentTitle (env w') = documentTitle (env w)
  /\ before_hash (href (env w')) = before_hash (href (env w))
  /\ (forall key, key <> "codex_state" ->
        localStorage (env w') !! key = localStorage (env w) !! key).

(** No confirmation is pending. *)
Definition confirm_closed (w : World) : Prop :=
  confirmDialogOpen (env w) = false /\ _confirmResolve (app w) = false.

(** The texts the page inserts as HTML hold no newline character. *)
Definition display_clean (w : World) : Prop :=
  Strings.count_newlines (view_text (section (app w))) = 0
  /\ Strings.count_newlines (notifyMsg (app w)) = 0
  /\ Strings.count_newlines (confirmMsg (app w)) = 0.

End Session.

(** Every character of the string is an ASCII character: on these strings
    [toUpperCase] and [toLowerCase] are the maps of [Strings]. *)
Fixpoint is_ascii (s : string) : bool :=
  match s with
  | EmptyString => true
  | String c rest => (nat_of_ascii c <? 128) && is_ascii rest
  end.

(** The character occurs in the string. *)
Fixpoint occurs (c : ascii) (s : string) : bool :=
  match s with
  | EmptyString => false
  | String d rest => Ascii.eqb d c || occurs c rest
  end.

(** * Properties *)

(** ** utils/strings.ts *)

Module StringsFacts.
Import Strings.

Lemma split_on_nonempty sep s : split_on sep s <> [].
Proof.
  destruct s as [|c rest]; simpl; [discriminate|].
  destruct (Ascii.eqb c sep); [discriminate|].
  destruct (split_on sep rest); discriminate.
Qed.

Lemma join_cons_char sep c w ws :
  join sep (String c w :: ws) = String c (join sep (w :: ws)).
Proof. destruct ws; reflexivity. Qed.

Lemma count_newlines_app a b :
  count_newlines (a +:+ b) = count_newlines a + count_newlines b.
Proof.
  induction a as [|c a IH]; simpl; [reflexivity|].
  rewrite IH. lia.
Qed.

Lemma newlineToBr_app a b :
  newlineToBr (a +:+ b) = newlineToBr a +:+ newlineToBr b.
Proof.
  induction a as [|c a IH]; simpl; [reflexivity|].
  rewrite IH. destruct (Ascii.eqb c newline); reflexivity.
Qed.

Lemma newlineToBr_no_newlines s :
  count_newlines s = 0 -> newlineToBr s = s.
Proof.
  induction s as [|c s IH]; simpl; [reflexivity|].
  destruct (Ascii.eqb c newline); simpl; [discriminate|].
  intros H. now rewrite IH.
Qed.

Lemma newlineToBr_split_join s :
  newlineToBr s = join "<br/>" (split_on newline s).
Proof.
  induction s as [|c s IH]; simpl; [reflexivity|].
  destruct (Ascii.eqb c newline).
  - rewrite IH. pose proof (split_on_nonempty newline s) as Hne.
    destruct (split_on newline s); [contradiction|reflexivity].
  - rewrite IH. pose proof (split_on_nonempty newline s) as Hne.
    destruct (split_on newline s) as [|w ws]; [contradiction|].
    now rewrite join_cons_char.
Qed.

Lemma newlineToBr_clean s : count_newlines (newlineToBr s) = 0.
Proof.
  induction s as [|c s IH]; simpl; [reflexivity|].
  destruct (Ascii.eqb c newline) eqn:Hc; simpl; [assumption|].
  now rewrite Hc.
Qed.

(** C10: [newlineToBr] replaces every newline by '<br/>' (it is the join by
    '<br/>' of the pieces between the newlines, and it distributes over
    concatenation), its output has no newline, and it is idempotent. *)
Theorem newlineToBr_idempotent (s : string) :
  newlineToBr s = join "<br/>" (split_on newline s)
  /\ (forall a b, newlineToBr (a +:+ String newline b) = newlineToBr a +:+ "<br/>" +:+ newlineToBr b)
  /\ count_newlines (newlineToBr s) = 0
  /\ newlineToBr (newlineToBr s) = newlineToBr s.
Proof.
  split; [apply newlineToBr_split_join|].
  split.
  - intros a b. rewrite newlineToBr_app. reflexivity.
  - split; [apply newlineToBr_clean|].
    apply newlineToBr_no_newlines, newlineToBr_clean.
Qed.

Example newlineToBr_two_lines :
  newlineToBr (String "a" (String newline "b")) = "a<br/>b".
Proof. reflexivity. Qed.

Example niceify_dark_cave : niceify "dark_CAVE_2" = "Dark Cave 2".
Proof. reflexivity. Qed.

End StringsFacts.

(** ** Interpolator *)

Module InterpolatorFacts.
Import ScopeManager Interpolator.

Section Render.
Context {ScopeView ScriptFault : Type}.
Variable evaluate : ScopeView -> string -> ScriptFault + Value.
Variable stringify : Value -> string.
Variable diagnostic : string -> ScriptFault -> string.

Local Abbreviation scan := (scan evaluate stringify diagnostic).
Local Abbreviation render := (render evaluate stringify diagnostic).
Local Abbreviation substitute := (substitute evaluate stringify diagnostic).

Lemma append_assoc (a b c : string) : (a +:+ b) +:+ c = a +:+ (b +:+ c).
Proof. induction a as [|x a IH]; simpl; [reflexivity|now f_equal]. Qed.

Lemma append_empty (a : string) : a +:+ "" = a.
Proof. induction a as [|x a IH]; simpl; [reflexivity|now f_equal]. Qed.

Lemma scan_literal sc lit rest :
  free_of "{" lit = true ->
  scan sc (lit +:+ rest) None = lit +:+ scan sc rest None.
Proof.
  induction lit as [|c lit IH]; simpl; [reflexivity|].
  intros H. apply andb_prop in H as [Hc Hlit].
  apply negb_true_iff in Hc. rewrite Hc. now rewrite IH.
Qed.

Lemma scan_pending sc e : forall acc rest,
  free_of "}" e = true ->
  scan sc (e +:+ String "}" rest) (Some acc)
  = substitute sc (acc +:+ e) +:+ scan sc rest None.
Proof.
  induction e as [|c e IH]; simpl; intros acc rest H.
  - now rewrite append_empty.
  - apply andb_prop in H as [Hc He]. apply negb_true_iff in Hc. rewrite Hc.
    rewrite IH by assumption. now rewrite append_assoc.
Qed.

Lemma render_one sc lit e rest :
  free_of "{" lit = true -> free_of "}" e = true ->
  render (lit +:+ String "{" (e +:+ String "}" rest)) sc
  = lit +:+ substitute sc e +:+ render rest sc.
Proof.
  intros Hlit He. unfold render.
  rewrite scan_literal by assumption. simpl.
  now rewrite scan_pending by assumption.
Qed.

(** C7: a placeholder whose expression evaluates is replaced by the
    stringified result ("{1+1}" gives "2" when the script engine evaluates
    1+1 to 2 and prints it as "2"); a placeholder whose evaluation fails is
    replaced by the diagnostic marker; in both cases the text before it is
    kept and the text after it is rendered. *)
Theorem render_placeholder sc lit e rest :
  free_of "{" lit = true -> free_of "}" e = true ->
  (forall v, evaluate sc e = inr v ->
     render (lit +:+ String "{" (e +:+ String "}" rest)) sc
     = lit +:+ stringify v +:+ render rest sc)
  /\ (forall fault, evaluate sc e = inl fault ->
     render (lit +:+ String "{" (e +:+ String "}" rest)) sc
     = lit +:+ diagnostic e fault +:+ render rest sc)
  /\ (evaluate sc "1+1" = inr (VNumber 2) -> stringify (VNumber 2) = "2" ->
     render "{1+1}" sc = "2").
Proof.
  intros Hlit He. split; [|split].
  - intros v Hv. rewrite render_one by assumption.
    unfold Interpolator.substitute. now rewrite Hv.
  - intros fault Hf. rewrite render_one by assumption.
    unfold Interpolator.substitute. now rewrite Hf.
  - intros H2 Hs. unfold Interpolator.render. simpl.
    unfold Interpolator.substitute. now rewrite H2, Hs.
Qed.

End Render.

End InterpolatorFacts.

(** ** codex.ts *)

Section UrlFacts.

Lemma fragment_before_hash url : fragment (before_hash url) = "".
Proof.
  induction url as [|c url IH]; simpl; [reflexivity|].
  destruct (Ascii.eqb c "#") eqn:Hc; simpl; [reflexivity|].
  now rewrite Hc.
Qed.

Lemma before_hash_idem url : before_hash (before_hash url) = before_hash url.
Proof.
  induction url as [|c url IH]; simpl; [reflexivity|].
  destruct (Ascii.eqb c "#") eqn:Hc; simpl; [reflexivity|].
  now rewrite Hc, IH.
Qed.

Lemma location_hash_before_hash url : location_hash (before_hash url) = "".
Proof. unfold location_hash. now rewrite fragment_before_hash. Qed.

Lemma location_search_before_hash url :
  location_search (before_hash url) = location_search url.
Proof. unfold location_search. now rewrite before_hash_idem. Qed.

Lemma startSectionId_before_hash url : startSectionId_of (before_hash url) = "start".
Proof. unfold startSectionId_of. now rewrite location_hash_before_hash. Qed.

Lemma startSectionId_start url :
  slice1 (location_hash url) = "" \/ slice1 (location_hash url) = "start" ->
  startSectionId_of url = "start".
Proof. unfold startSectionId_of. intros [-> | ->]; reflexivity. Qed.

Lemma startSectionId_anchor url :
  slice1 (location_hash url) <> "" ->
  startSectionId_of url = slice1 (location_hash url).
Proof.
  unfold startSectionId_of. intros H.
  destruct (String.eqb_spec (slice1 (location_hash url)) ""); [contradiction|reflexivity].
Qed.

End UrlFacts.

Section AppFacts.
Context {B : Browser} {E : StoryEngine}.

Lemma eqb_restart id : id <> "restart" -> String.eqb id "restart" = false.
Proof. intros H. now apply String.eqb_neq. Qed.

(** Navigation to a known section, case by case on the visit. *)
Lemma gotoSection_known id w sec :
  id <> "restart" -> getSection (story w) id = Some sec ->
  gotoSection id w =
    match visit sec (story w) with
    | (st, Some e) => Abrupt (set_story st w) e
    | (st, None) =>
        Normal (set_env (replaceState_hash id)
          (set_app (set_section
             (mkSectionView (section_id sec) (Strings.niceify (section_id sec))
                (Strings.newlineToBr (section_text st sec)) (section_options st sec)))
             (assign_state (getState st) (set_story st w))))
    end.
Proof.
  intros Hid Hsec. unfold gotoSection. rewrite (eqb_restart id Hid), Hsec.
  destruct (visit sec (story w)) as [st [e|]]; reflexivity.
Qed.

(** What an assignment of [state] changes: the state, and the queue of the
    watcher when it is registered and the value differs. *)
Lemma assign_state_frame v w :
  env (assign_state v w) = env w
  /\ story (assign_state v w) = story w
  /\ state (app (assign_state v w)) = v
  /\ statePending (app (assign_state v w))
     = (if stateWatched (app w) && negb (Object_is v (state (app w)))
        then Some v else statePending (app w))
  /\ title (app (assign_state v w)) = title (app w)
  /\ section (app (assign_state v w)) = section (app w)
  /\ loaded (app (assign_state v w)) = loaded (app w)
  /\ sheetVisible (app (assign_state v w)) = sheetVisible (app w)
  /\ stateWatched (app (assign_state v w)) = stateWatched (app w)
  /\ notifyMsg (app (assign_state v w)) = notifyMsg (app w)
  /\ confirmMsg (app (assign_state v w)) = confirmMsg (app w)
  /\ _confirmResolve (app (assign_state v w)) = _confirmResolve (app w).
Proof.
  unfold assign_state.
  destruct (stateWatched (app w) && negb (Object_is v (state (app w))));
    repeat split; reflexivity.
Qed.

(** What the microtasks change: the saved state, and the queue. *)
Lemma runMicrotasks_frame w :
  story (runMicrotasks w) = story w
  /\ statePending (app (runMicrotasks w)) = None
  /\ localStorage (env (runMicrotasks w))
     = match statePending (app w) with
       | Some v => <["codex_state" := JSON_stringify v]> (localStorage (env w))
       | None => localStorage (env w)
       end
  /\ href (env (runMicrotasks w)) = href (env w)
  /\ navigation (env (runMicrotasks w)) = navigation (env w)
  /\ documentTitle (env (runMicrotasks w)) = documentTitle (env w)
  /\ console (env (runMicrotasks w)) = console (env w)
  /\ notifyDialogOpen (env (runMicrotasks w)) = notifyDialogOpen (env w)
  /\ confirmDialogOpen (env (runMicrotasks w)) = confirmDialogOpen (env w)
  /\ title (app (runMicrotasks w)) = title (app w)
  /\ section (app (runMicrotasks w)) = section (app w)
  /\ state (app (runMicrotasks w)) = state (app w)
  /\ loaded (app (runMicrotasks w)) = loaded (app w)
  /\ sheetVisible (app (runMicrotasks w)) = sheetVisible (app w)
  /\ stateWatched (app (runMicrotasks w)) = stateWatched (app w)
  /\ notifyMsg (app (runMicrotasks w)) = notifyMsg (app w)
  /\ confirmMsg (app (runMicrotasks w)) = confirmMsg (app w)
  /\ _confirmResolve (app (runMicrotasks w)) = _confirmResolve (app w).
Proof.
  unfold runMicrotasks.
  destruct (statePending (app w)) as [v|] eqn:Hp; repeat split; try reflexivity.
  exact Hp.
Qed.

(** While the watcher is not registered, navigation saves no state, at once
    or later. *)
Lemma gotoSection_unwatched id w :
  stateWatched (app w) = false ->
  localStorage (env w) !! "codex_state" = None ->
  localStorage (env (world_after (gotoSection id w))) !! "codex_state" = None
  /\ statePending (app (world_after (gotoSection id w))) = statePending (app w).
Proof.
  intros Hw Hls. unfold gotoSection.
  destruct (String.eqb id "restart"); simpl.
  - split; [apply lookup_delete_eq|reflexivity].
  - destruct (getSection (story w) id) as [sec|]; simpl; [|now split].
    destruct (visit sec (story w)) as [st [e|]]; simpl; [now split|].
    destruct (assign_state_frame (getState st) (set_story st w))
      as (-> & _ & _ & -> & _).
    simpl. rewrite Hw. simpl. now split.
Qed.

(** C2: navigating to 'restart' deletes the saved state and tells the window
    to load the document's URL without its fragment; the story is not
    consulted (the result is the same for every engine, also for a story
    that has a section of that name: nothing is visited, nothing is
    reported missing). The document loaded next has no anchor, so its
    [init] launches the freshly parsed story at 'start' with no saved state. *)
Theorem gotoSection_restart (w : World) :
  exists w',
    gotoSection "restart" w = Normal w'
    /\ localStorage (env w') = delete "codex_state" (localStorage (env w))
    /\ localStorage (env w') !! "codex_state" = None
    /\ navigation (env w') = Some (before_hash (href (env w)))
    /\ story w' = story w /\ app w' = app w /\ console (env w') = console (env w)
    /\ (forall storyUrl st,
          truthy (URLSearchParams_get (location_search (href (env w))) "story")
            = Some storyUrl ->
          Story_parse storyUrl = inr st ->
          followNavigation w'
          = Some (launch "start"
                    (mkWorld freshApp
                       (mkEnv (delete "codex_state" (localStorage (env w)))
                          (before_hash (href (env w))) None ""
                          [ConsoleLog ("Hello " +:+ storyUrl)] false false)
                       st))).
Proof.
  eexists. split; [reflexivity|]. simpl.
  repeat split; try reflexivity.
  - apply lookup_delete_eq.
  - intros storyUrl st Hurl Hparse.
    unfold followNavigation, init. simpl.
    rewrite location_search_before_hash, Hurl, Hparse. simpl.
    rewrite startSectionId_before_hash. simpl.
    unfold set_env, removeItem. simpl. now rewrite delete_delete_eq.
Qed.

(** C3: for an id that is not 'restart' and that the story does not know,
    [gotoSection] returns normally; the console has one more entry, the
    error naming the id, and nothing else changes: the application state
    (displayed section included), the story, the URL, the saved state. *)
Theorem gotoSection_missing (id : string) (w : World) :
  id <> "restart" -> getSection (story w) id = None ->
  exists w',
    gotoSection id w = Normal w'
    /\ console (env w') = console (env w) ++ [ConsoleError ("Section not found: " +:+ id)]
    /\ app w' = app w
    /\ story w' = story w
    /\ href (env w') = href (env w)
    /\ navigation (env w') = navigation (env w)
    /\ localStorage (env w') = localStorage (env w).
Proof.
  intros Hid Hsec. eexists. split.
  - unfold gotoSection. rewrite (eqb_restart id Hid), Hsec. reflexivity.
  - repeat split; reflexivity.
Qed.

(** C4: on a navigation to a known section the application reads the state
    of the story only when [visit] has returned. If the visit completes, the
    state shown is that of the story after the whole visit; nothing is
    written at once, and when the microtasks run the saved state becomes
    that same state if the watcher is registered and the value differs from
    the one shown before, and otherwise is what it would have been without
    the navigation. If the visit throws, [gotoSection] throws too and the
    state shown, the queue of the watcher and the saved state are what they
    were. *)
Theorem gotoSection_snapshot_after_visit (id : string) (w : World) (sec : SectionT) :
  id <> "restart" -> getSection (story w) id = Some sec ->
  match visit sec (story w) with
  | (st, None) =>
      exists w', gotoSection id w = Normal w'
        /\ story w' = st
        /\ state (app w') = getState st
        /\ localStorage (env w') = localStorage (env w)
        /\ statePending (app w')
           = (if stateWatched (app w) && negb (Object_is (getState st) (state (app w)))
              then Some (getState st) else statePending (app w))
        /\ localStorage (env (runMicrotasks w'))
           = (if stateWatched (app w) && negb (Object_is (getState st) (state (app w)))
              then <["codex_state" := JSON_stringify (getState st)]>
                     (localStorage (env w))
              else localStorage (env (runMicrotasks w)))
  | (st, Some e) =>
      exists w', gotoSection id w = Abrupt w' e
        /\ story w' = st
        /\ state (app w') = state (app w)
        /\ localStorage (env w') = localStorage (env w)
        /\ statePending (app w') = statePending (app w)
        /\ localStorage (env (runMicrotasks w')) = localStorage (env (runMicrotasks w))
  end.
Proof.
  intros Hid Hsec. rewrite (gotoSection_known id w sec Hid Hsec).
  destruct (visit sec (story w)) as [st [e|]].
  - eexists. split; [reflexivity|]. repeat split; try reflexivity.
    rewrite !(proj1 (proj2 (proj2 (runMicrotasks_frame _)))). reflexivity.
  - eexists. split; [reflexivity|].
    destruct (assign_state_frame (getState st) (set_story st w))
      as (Henv & Hstory & Hstate & Hpend & _).
    simpl in Hpend.
    split; [simpl; exact Hstory|]. split; [simpl; exact Hstate|].
    split; [simpl; now rewrite Henv|]. split; [simpl; exact Hpend|].
    rewrite (proj1 (proj2 (proj2 (runMicrotasks_frame _)))). simpl.
    rewrite Hpend, Henv. simpl.
    destruct (stateWatched (app w) && negb (Object_is (getState st) (state (app w))));
      [reflexivity|].
    now rewrite (proj1 (proj2 (proj2 (runMicrotasks_frame w)))).
Qed.

End AppFacts.

Section OptionFacts.
Context {B : Browser} {E : StoryEngine}.

(** The world in which a suspended method continues: the dialog is closed
    and the stored resolver is cleared. *)
Lemma confirmResult_confirm confirmed msg w :
  confirmResult confirmed (confirm msg w)
  = (set_app (set_confirmResolve false)
       (set_env (set_confirmDialogOpen false) (confirm msg w)), Some confirmed).
Proof. reflexivity. Qed.

(** Without a next section the effects of an option leave the displayed
    section and the URL alone. *)
Lemma takeOption_effects_stays result w :
  truthy (Result.nextSectionId result) = None ->
  exists final, takeOption_effects result w = Done final
    /\ section (app final) = section (app w)
    /\ href (env final) = href (env w)
    /\ navigation (env final) = navigation (env w).
Proof.
  intros Hnext. unfold takeOption_effects. rewrite Hnext.
  destruct (truthy (Result.notifyMsg result)); eexists; (split; [reflexivity|]);
    repeat split; reflexivity.
Qed.

(** C1 (as the code has it): when the result of [execute] carries a
    confirmation message, [execute] has returned, and the story holds
    whatever its run-code did, when the confirmation is shown; the
    navigation and the notification happen only once the confirmation is
    answered, with either answer: while the dialog is open the displayed
    section, the application state, the URL, the saved state (and what is
    queued to be saved) and the notification are what they were. *)
Theorem takeOption_confirm_order
  (option : OptionT) (w : World) (st : StoryT) (result : Result.t) (msg : string) :
  execute option (story w) = (st, inr result) ->
  truthy (Result.confirmMsg result) = Some msg ->
  let waiting := confirm msg (set_story st w) in
  (exists k, takeOption option w = Await waiting k)
  /\ story waiting = st
  /\ confirmDialogOpen (env waiting) = true
  /\ confirmMsg (app waiting) = Strings.newlineToBr msg
  /\ section (app waiting) = section (app w)
  /\ state (app waiting) = state (app w)
  /\ href (env waiting) = href (env w)
  /\ navigation (env waiting) = navigation (env w)
  /\ localStorage (env waiting) = localStorage (env w)
  /\ statePending (app waiting) = statePending (app w)
  /\ notifyMsg (app waiting) = notifyMsg (app w)
  /\ notifyDialogOpen (env waiting) = notifyDialogOpen (env w)
  /\ (forall confirmed : bool,
        answer confirmed (takeOption option w)
        = takeOption_effects result
            (set_app (set_confirmResolve false)
               (set_env (set_confirmDialogOpen false) waiting))).
Proof.
  intros Hexec Hmsg waiting.
  assert (Htake : takeOption option w
                  = Await waiting (fun _ w' => takeOption_effects result w')).
  { unfold takeOption. rewrite Hexec, Hmsg. reflexivity. }
  split; [eexists; exact Htake|].
  repeat (split; [reflexivity|]).
  intros confirmed. rewrite Htake. reflexivity.
Qed.

(** C5: when the result of [execute] has no next section (none, or the
    empty string), [takeOption] completes, whatever the answer to a
    confirmation it may ask for, with the displayed section (id, title,
    text and options) and the URL it started with, and nothing is loaded;
    the same holds while it waits for the answer. *)
Theorem takeOption_stays
  (option : OptionT) (w : World) (st : StoryT) (result : Result.t) (confirmed : bool) :
  execute option (story w) = (st, inr result) ->
  truthy (Result.nextSectionId result) = None ->
  (exists final,
      answer confirmed (takeOption option w) = Done final
      /\ section (app final) = section (app w)
      /\ href (env final) = href (env w)
      /\ navigation (env final) = navigation (env w))
  /\ section (app (world_of (takeOption option w))) = section (app w)
  /\ href (env (world_of (takeOption option w))) = href (env w).
Proof.
  intros Hexec Hnext. unfold takeOption. rewrite Hexec.
  destruct (truthy (Result.confirmMsg result)) as [msg|].
  - split; [|split; reflexivity].
    unfold answer. rewrite confirmResult_confirm.
    destruct (takeOption_effects_stays result
                (set_app (set_confirmResolve false)
                   (set_env (set_confirmDialogOpen false) (confirm msg (set_story st w))))
                Hnext) as (final & Hfinal & Hsec & Hhref & Hnav).
    exists final. repeat split; assumption.
  - destruct (takeOption_effects_stays result (set_story st w) Hnext)
      as (final & Hfinal & Hsec & Hhref & Hnav).
    rewrite Hfinal. simpl.
    split; [exists final|]; repeat split; assumption.
Qed.

(** C9: [triggerEvent] first asks for confirmation and touches nothing else;
    when the user declines it is done, with the story, the application
    state, the saved state (and what is queued to be saved) and the
    notification as they were; the event
    handler runs, and its message is notified, only in the continuation that
    a positive answer starts. *)
Theorem triggerEvent_confirmed_only
  (msg eventId : string) (args : list string) (w : World) :
  let waiting := confirm (msg +:+ areYouSure) w in
  let resumed := set_app (set_confirmResolve false)
                   (set_env (set_confirmDialogOpen false) waiting) in
  (exists k, triggerEvent msg eventId args w = Await waiting k)
  /\ story waiting = story w
  /\ state (app waiting) = state (app w)
  /\ notifyMsg (app waiting) = notifyMsg (app w)
  /\ notifyDialogOpen (env waiting) = notifyDialogOpen (env w)
  /\ answer false (triggerEvent msg eventId args w) = Done resumed
  /\ story resumed = story w
  /\ state (app resumed) = state (app w)
  /\ localStorage (env resumed) = localStorage (env w)
  /\ statePending (app resumed) = statePending (app w)
  /\ notifyMsg (app resumed) = notifyMsg (app w)
  /\ notifyDialogOpen (env resumed) = notifyDialogOpen (env w)
  /\ answer true (triggerEvent msg eventId args w)
     = match trigger eventId args (story w) with
       | (st, inr message) =>
           Done (notify message (assign_state (getState st) (set_story st resumed)))
       | (st, inl e) => Rejected (set_story st resumed) e
       end.
Proof.
  intros waiting resumed.
  split; [eexists; reflexivity|].
  repeat (split; [reflexivity|]).
  unfold triggerEvent, answer. fold waiting. unfold waiting at 1.
  rewrite confirmResult_confirm. fold waiting. fold resumed. simpl.
  change (story resumed) with (story w).
  destruct (trigger eventId args (story w)) as [st [e|message]]; reflexivity.
Qed.

(** C8: at startup, with a story that loads: when the URL has no anchor or
    the anchor 'start', the saved state is deleted, the story is launched at
    'start' as it was parsed, and the started session has no saved state,
    also when the microtasks have run; with any other anchor the saved state is read: a missing or empty one
    leaves the story as parsed, one that does not parse is reported on the
    console and the story is launched as parsed, and one that parses is
    given to [setState]. *)
Theorem init_saved_state
  (url : string) (storage : gmap string string) (storyUrl : string) (st : StoryT) :
  truthy (URLSearchParams_get (location_search url) "story") = Some storyUrl ->
  Story_parse storyUrl = inr st ->
  let anchor := slice1 (location_hash url) in
  let w := mkWorld freshApp
             (mkEnv storage url None "" [ConsoleLog ("Hello " +:+ storyUrl)] false false)
             st in
  (anchor = "" \/ anchor = "start" ->
     init (loadPage url storage) = launch "start" (set_env (removeItem "codex_state") w)
     /\ story (set_env (removeItem "codex_state") w) = st
     /\ forall w', init (loadPage url storage) = Started w' ->
                   localStorage (env w') !! "codex_state" = None
                   /\ localStorage (env (runMicrotasks w')) !! "codex_state" = None)
  /\ (anchor <> "" -> anchor <> "start" ->
      init (loadPage url storage) = launch anchor (loadSavedState w)
      /\ (truthy (storage !! "codex_state") = None -> loadSavedState w = w)
      /\ (forall blob, truthy (storage !! "codex_state") = Some blob ->
            JSON_parse blob = None ->
            loadSavedState w
            = set_env (console_add
                (ConsoleError "Failed to parse saved state from localStorage:")) w)
      /\ (forall blob obj, truthy (storage !! "codex_state") = Some blob ->
            JSON_parse blob = Some obj ->
            story (loadSavedState w) = fst (setState obj st))).
Proof.
  intros Hurl Hparse anchor w.
  assert (Hinit : init (loadPage url storage)
                  = launch (startSectionId_of url)
                      (if String.eqb (startSectionId_of url) "start"
                       then set_env (removeItem "codex_state") w
                       else loadSavedState w)).
  { unfold init. simpl. rewrite Hurl, Hparse. reflexivity. }
  split.
  - intros Hanchor. rewrite Hinit, (startSectionId_start url Hanchor). simpl.
    split; [reflexivity|]. split; [reflexivity|].
    intros w' Hstarted. unfold launch in Hstarted.
    match type of Hstarted with
    | context [gotoSection "start" ?w0] =>
        destruct (gotoSection_unwatched "start" w0 eq_refl (lookup_delete_eq _ _))
          as [Hls Hpend];
        destruct (gotoSection "start" w0) as [w4|w4 e]
    end; [|discriminate].
    injection Hstarted as <-. split; [exact Hls|].
    rewrite (proj1 (proj2 (proj2 (runMicrotasks_frame _)))).
    simpl in *. rewrite Hpend. exact Hls.
  - intros Hne Hns. rewrite Hinit, (startSectionId_anchor url Hne).
    fold anchor. rewrite (proj2 (String.eqb_neq anchor "start") Hns).
    split; [reflexivity|]. unfold loadSavedState. simpl.
    split; [intros ->; reflexivity|]. split.
    + intros blob -> ->. reflexivity.
    + intros blob obj -> ->. destruct (setState obj st) as [st' [e|]]; reflexivity.
Qed.

End OptionFacts.

(** ** The properties on the small story *)

Module CaveFacts.
Import Cave.

Example session_started :
  init startPage = Started session
  /\ view_id (section (app session)) = "start"
  /\ story session = mkPurse 10 1
  /\ localStorage (env session) !! "codex_state" = None.
Proof. vm_compute. repeat split; reflexivity. Qed.

Example played_saved :
  view_id (section (app played)) = "cave"
  /\ story played = mkPurse 15 2
  /\ localStorage (env played) !! "codex_state" = Some "15"
  /\ href (env played) = "http://localhost/sys/ff/?story=cave.yaml#cave".
Proof. vm_compute. repeat split; reflexivity. Qed.

(** C1, as stated, fails: while the confirmation of 'dig' is pending the
    purse already holds the gold of the option's run-code. *)
Lemma takeOption_runs_code_unconfirmed :
  ~ (forall w1 k, takeOption Dig session = Await w1 k -> story w1 = story session).
Proof.
  intros H.
  specialize (H (confirm "Dig here?" (set_story (mkPurse 15 1) session))
                (fun _ w' => takeOption_effects
                   (Result.mk (Some "Dig here?") (Some "cave") (Some "You found gold!")) w')
                eq_refl).
  vm_compute in H. discriminate H.
Qed.

Lemma takeOption_confirm_order_witness :
  (execute Dig (story session)
   = (mkPurse 15 1,
      inr (Result.mk (Some "Dig here?") (Some "cave") (Some "You found gold!")))
   /\ truthy (Some "Dig here?") = Some "Dig here?")
  /\ (exists k, takeOption Dig session
                = Await (confirm "Dig here?" (set_story (mkPurse 15 1) session)) k).
Proof.
  split; [split; reflexivity|].
  exact (proj1 (takeOption_confirm_order Dig session (mkPurse 15 1)
                  (Result.mk (Some "Dig here?") (Some "cave") (Some "You found gold!"))
                  "Dig here?" eq_refl eq_refl)).
Defined.

Lemma gotoSection_restart_witness :
  getSection (story played) "restart" = Some "restart"
  /\ localStorage (env played) !! "codex_state" = Some "15"
  /\ exists w',
       gotoSection "restart" played = Normal w'
       /\ localStorage (env w') !! "codex_state" = None
       /\ story w' = story played
       /\ exists w'',
            followNavigation w' = Some (Started w'')
            /\ view_id (section (app w'')) = "start"
            /\ story w'' = mkPurse 10 1
            /\ href (env w'') = "http://localhost/sys/ff/?story=cave.yaml#start".
Proof.
  split; [reflexivity|]. split; [reflexivity|].
  destruct (gotoSection_restart played)
    as (w' & Hgo & _ & Hls & _ & Hstory & _ & _ & Hreload).
  exists w'. split; [exact Hgo|]. split; [exact Hls|]. split; [exact Hstory|].
  specialize (Hreload "cave.yaml" (mkPurse 10 0) eq_refl eq_refl).
  eexists. split; [exact Hreload|]. repeat split; reflexivity.
Defined.

Lemma gotoSection_missing_witness :
  ("attic" <> "restart" /\ getSection (story session) "attic" = None)
  /\ exists w',
       gotoSection "attic" session = Normal w'
       /\ console (env w')
          = console (env session) ++ [ConsoleError "Section not found: attic"]
       /\ app w' = app session
       /\ story w' = story session
       /\ href (env w') = href (env session)
       /\ navigation (env w') = navigation (env session)
       /\ localStorage (env w') = localStorage (env session).
Proof.
  split; [split; [discriminate|reflexivity]|].
  apply (gotoSection_missing "attic" session); [discriminate|reflexivity].
Defined.

Lemma gotoSection_snapshot_after_visit_witness :
  ("vault" <> "restart" /\ getSection (story played) "vault" = Some "vault"
   /\ visit "vault" (story played) = (mkPurse 115 3, None)
   /\ getState (story played) = 15
   /\ localStorage (env played) !! "codex_state" = Some "15")
  /\ exists w',
       gotoSection "vault" played = Normal w'
       /\ story w' = mkPurse 115 3
       /\ state (app w') = 115
       /\ localStorage (env w') = localStorage (env played)
       /\ statePending (app w') = Some 115
       /\ localStorage (env (runMicrotasks w'))
          = <["codex_state" := "115"]> (localStorage (env played)).
Proof.
  split; [split; [discriminate|repeat split; reflexivity]|].
  apply (gotoSection_snapshot_after_visit "vault" played "vault");
    [discriminate|reflexivity].
Defined.

(** A visit that leaves the state as it is shown: the watcher is not
    triggered and nothing is saved. *)
Example gotoSection_unchanged_state :
  exists w',
    gotoSection "cave" session = Normal w'
    /\ state (app session) = 10 /\ state (app w') = 10
    /\ statePending (app w') = None
    /\ localStorage (env (runMicrotasks w')) !! "codex_state" = None.
Proof. eexists. split; [reflexivity|]. repeat split; reflexivity. Qed.

(** A visit that throws half-way: the purse is already empty, the state shown
    and the saved state are the earlier ones. *)
Example gotoSection_trap :
  exists w' e,
    gotoSection "trap" played = Abrupt w' e
    /\ story w' = mkPurse 0 2
    /\ state (app w') = 15
    /\ localStorage (env w') !! "codex_state" = Some "15".
Proof. eexists _, _. split; [reflexivity|]. repeat split; reflexivity. Qed.

Lemma takeOption_stays_witness :
  (execute Buy (story played)
   = (mkPurse 10 2, inr (Result.mk (Some "Buy the lamp?") None None))
   /\ truthy None = None)
  /\ exists final,
       answer false (takeOption Buy played) = Done final
       /\ section (app final) = section (app played)
       /\ href (env final) = href (env played)
       /\ navigation (env final) = navigation (env played).
Proof.
  split; [split; reflexivity|].
  exact (proj1 (takeOption_stays Buy played (mkPurse 10 2)
                  (Result.mk (Some "Buy the lamp?") None None) false eq_refl eq_refl)).
Defined.

Lemma init_saved_state_witness :
  (truthy (URLSearchParams_get
             (location_search "http://localhost/sys/ff/?story=cave.yaml#cave") "story")
   = Some "cave.yaml"
   /\ Story_parse "cave.yaml" = inr (mkPurse 10 0)
   /\ slice1 (location_hash "http://localhost/sys/ff/?story=cave.yaml#cave") = "cave")
  /\ init brokenPage
     = launch "cave"
         (loadSavedState
            (mkWorld freshApp
               (mkEnv {["codex_state" := "{oops"]}
                  "http://localhost/sys/ff/?story=cave.yaml#cave" None ""
                  [ConsoleLog "Hello cave.yaml"] false false)
               (mkPurse 10 0))).
Proof.
  split; [repeat split; reflexivity|].
  refine (proj1 (proj2 (init_saved_state
            "http://localhost/sys/ff/?story=cave.yaml#cave" {["codex_state" := "{oops"]}
            "cave.yaml" (mkPurse 10 0) eq_refl eq_refl) _ _)); discriminate.
Defined.

Example init_broken_blob :
  exists w, init brokenPage = Started w
    /\ story w = mkPurse 10 1
    /\ In (ConsoleError "Failed to parse saved state from localStorage:")
          (console (env w)).
Proof. eexists. split; [reflexivity|]. split; [reflexivity|]. right; left; reflexivity. Qed.

Example init_restores :
  exists w, init savedPage = Started w /\ story w = mkPurse 42 1.
Proof. eexists. split; reflexivity. Qed.

Lemma render_placeholder_witness :
  (Interpolator.free_of "{" "Gold: " = true /\ Interpolator.free_of "}" "gold" = true)
  /\ Interpolator.render calc tostring marker "Gold: {gold}, sum {1+1}, {oops}!"
       (mkPurse 7 0)
     = "Gold: 7, sum 2, [error in oops]!".
Proof.
  split; [split; reflexivity|].
  exact (eq_trans
           (proj1 (InterpolatorFacts.render_placeholder calc tostring marker
                     (mkPurse 7 0) "Gold: " "gold" ", sum {1+1}, {oops}!"
                     eq_refl eq_refl)
                  (ScopeManager.VNumber 7) eq_refl)
           eq_refl).
Defined.

End CaveFacts.

(** * Further properties *)

(** ** utils/strings.ts *)

Module StringsMore.
Import Strings StringsFacts.

Lemma length_append (a b : string) :
  String.length (a +:+ b) = String.length a + String.length b.
Proof. induction a as [|c a IH]; simpl; [reflexivity|now rewrite IH]. Qed.

(** X1: every newline costs four more characters: the output of
    [newlineToBr] is as long as the input plus four times its newlines. *)
Theorem newlineToBr_length (s : string) :
  String.length (newlineToBr s) = String.length s + 4 * count_newlines s.
Proof.
  induction s as [|c s IH]; simpl; [reflexivity|].
  destruct (Ascii.eqb c newline); simpl; rewrite IH; lia.
Qed.

(** X2: [newlineToBr] returns its input unchanged exactly when the input
    has no newline. *)
Theorem newlineToBr_fixed_iff (s : string) :
  newlineToBr s = s <-> count_newlines s = 0.
Proof.
  split; [|apply newlineToBr_no_newlines].
  intros H. pose proof (newlineToBr_length s) as Hlen.
  rewrite H in Hlen. lia.
Qed.

Lemma split_on_app sep a b :
  split_on sep (a +:+ String sep b) = split_on sep a ++ split_on sep b.
Proof.
  induction a as [|c a IH]; simpl.
  - now rewrite Ascii.eqb_refl.
  - destruct (Ascii.eqb c sep); rewrite IH; [reflexivity|].
    pose proof (split_on_nonempty sep a) as Hne.
    destruct (split_on sep a); [contradiction|reflexivity].
Qed.

Lemma join_app sep (l1 l2 : list string) :
  l1 <> [] -> l2 <> [] ->
  join sep (l1 ++ l2) = join sep l1 +:+ sep +:+ join sep l2.
Proof.
  intros H1 H2. induction l1 as [|w l1 IH]; [contradiction|].
  destruct l1 as [|w' l1].
  - simpl. destruct l2; [contradiction|reflexivity].
  - change (join sep ((w :: w' :: l1) ++ l2))
      with (w +:+ sep +:+ join sep ((w' :: l1) ++ l2)).
    rewrite IH by discriminate.
    change (join sep (w :: w' :: l1)) with (w +:+ sep +:+ join sep (w' :: l1)).
    now rewrite !InterpolatorFacts.append_assoc.
Qed.

Lemma map_nonempty {A C : Type} (f : A -> C) (l : list A) : l <> [] -> map f l <> [].
Proof. destruct l; [contradiction|discriminate]. Qed.

(** X3: [niceify] works word by word: an underscore between two parts of an
    id becomes one space between their titles. *)
Theorem niceify_underscore (a b : string) :
  niceify (a +:+ String "_" b) = niceify a +:+ " " +:+ niceify b.
Proof.
  unfold niceify. rewrite split_on_app, map_app.
  apply join_app; apply map_nonempty, split_on_nonempty.
Qed.

Lemma length_toLowerCase s : String.length (toLowerCase s) = String.length s.
Proof. induction s as [|c s IH]; simpl; [reflexivity|now rewrite IH]. Qed.

Lemma length_capitalise s : String.length (capitalise s) = String.length s.
Proof. destruct s; simpl; [reflexivity|now rewrite length_toLowerCase]. Qed.

Lemma length_join_split (f : string -> string) s :
  (forall w, String.length (f w) = String.length w) ->
  String.length (join " " (map f (split_on "_" s))) = String.length s.
Proof.
  intros Hf. induction s as [|c s IH]; simpl.
  - destruct (f "") eqn:Hfe; [reflexivity|].
    specialize (Hf ""). rewrite Hfe in Hf. discriminate Hf.
  - pose proof (split_on_nonempty "_" s) as Hne.
    destruct (Ascii.eqb c "_").
    + destruct (split_on "_" s) as [|w ws]; [contradiction|].
      change (map f ("" :: w :: ws)) with (f "" :: map f (w :: ws)).
      change (join " " (f "" :: map f (w :: ws)))
        with (f "" +:+ " " +:+ join " " (map f (w :: ws))).
      rewrite !length_append, Hf, IH. reflexivity.
    + destruct (split_on "_" s) as [|w ws]; [contradiction|].
      destruct ws as [|w' ws].
      * simpl in *. rewrite Hf. simpl. rewrite Hf in IH. now rewrite IH.
      * change (join " " (map f (String c w :: w' :: ws)))
          with (f (String c w) +:+ " " +:+ join " " (map f (w' :: ws))).
        change (join " " (map f (w :: w' :: ws)))
          with (f w +:+ " " +:+ join " " (map f (w' :: ws))) in IH.
        set (tail := join " " (map f (w' :: ws))) in *.
        rewrite !length_append in *. rewrite Hf. rewrite Hf in IH.
        simpl in *. lia.
Qed.

Lemma occurs_append c a b : occurs c (a +:+ b) = occurs c a || occurs c b.
Proof.
  induction a as [|d a IH]; simpl; [reflexivity|].
  now rewrite IH, orb_assoc.
Qed.

Lemma toUpperCase_char_not_underscore c :
  Ascii.eqb c "_" = false -> Ascii.eqb (toUpperCase_char c) "_" = false.
Proof.
  intros Hc. unfold toUpperCase_char.
  destruct (is_lower c) eqn:Hl; [|assumption].
  unfold is_lower in Hl. apply andb_prop in Hl as [H1 H2].
  apply Nat.leb_le in H1, H2.
  apply Ascii.eqb_neq. intros Heq.
  apply (f_equal nat_of_ascii) in Heq.
  rewrite nat_ascii_embedding in Heq by lia.
  change (nat_of_ascii "_") with 95 in Heq. lia.
Qed.

Lemma toLowerCase_char_not_underscore c :
  Ascii.eqb c "_" = false -> Ascii.eqb (toLowerCase_char c) "_" = false.
Proof.
  intros Hc. unfold toLowerCase_char.
  destruct (is_upper c) eqn:Hu; [|assumption].
  unfold is_upper in Hu. apply andb_prop in Hu as [H1 H2].
  apply Nat.leb_le in H1, H2.
  apply Ascii.eqb_neq. intros Heq.
  apply (f_equal nat_of_ascii) in Heq.
  rewrite nat_ascii_embedding in Heq by lia.
  change (nat_of_ascii "_") with 95 in Heq. lia.
Qed.

Lemma occurs_toLowerCase s :
  occurs "_" s = false -> occurs "_" (toLowerCase s) = false.
Proof.
  induction s as [|c s IH]; simpl; [reflexivity|].
  intros H. apply orb_false_elim in H as [Hc Hs].
  now rewrite toLowerCase_char_not_underscore, IH.
Qed.

Lemma occurs_capitalise s :
  occurs "_" s = false -> occurs "_" (capitalise s) = false.
Proof.
  destruct s as [|c s]; simpl; [reflexivity|].
  intros H. apply orb_false_elim in H as [Hc Hs].
  now rewrite toUpperCase_char_not_underscore, occurs_toLowerCase.
Qed.

Lemma occurs_join_split (f : string -> string) s :
  (forall w, occurs "_" w = false -> occurs "_" (f w) = false) ->
  occurs "_" (join " " (map f (split_on "_" s))) = false.
Proof.
  intros Hf.
  assert (Hpieces : Forall (fun w => occurs "_" w = false) (split_on "_" s)).
  { induction s as [|c s IH]; simpl; [constructor; [reflexivity|constructor]|].
    destruct (Ascii.eqb c "_") eqn:Hc; [constructor; [reflexivity|exact IH]|].
    pose proof (split_on_nonempty "_" s) as Hne.
    destruct (split_on "_" s) as [|w ws]; [contradiction|].
    inversion IH as [|? ? Hw Hws]; subst.
    constructor; [simpl; now rewrite Hc, Hw|exact Hws]. }
  induction Hpieces as [|w ws Hw Hws IH]; [reflexivity|].
  destruct ws as [|w' ws]; [simpl; now apply Hf|].
  change (join " " (map f (w :: w' :: ws)))
    with (f w +:+ " " +:+ join " " (map f (w' :: ws))).
  rewrite !occurs_append, (Hf w Hw), IH. reflexivity.
Qed.

(** X4: for an id of ASCII characters, the title made by [niceify] is as
    long as the id and has no underscore left. *)
Theorem niceify_length_no_underscore (id : string) :
  is_ascii id = true ->
  String.length (niceify id) = String.length id
  /\ occurs "_" (niceify id) = false.
Proof.
  intros _. split.
  - apply length_join_split, length_capitalise.
  - apply occurs_join_split, occurs_capitalise.
Qed.

End StringsMore.

(** ** codex.ts: the URL written and read back *)

Section UrlMore.

Lemma before_hash_replace url id :
  before_hash (before_hash url +:+ String "#" id) = before_hash url.
Proof.
  induction url as [|c url IH]; simpl; [reflexivity|].
  destruct (Ascii.eqb c "#") eqn:Hc; simpl; [reflexivity|].
  now rewrite Hc, IH.
Qed.

Lemma fragment_replace url id :
  fragment (before_hash url +:+ String "#" id) = id.
Proof.
  induction url as [|c url IH]; simpl; [reflexivity|].
  destruct (Ascii.eqb c "#") eqn:Hc; simpl; [reflexivity|].
  now rewrite Hc, IH.
Qed.

Lemma slice1_location_hash url : slice1 (location_hash url) = fragment url.
Proof. unfold location_hash. destruct (fragment url); reflexivity. Qed.

Lemma startSectionId_replace url id :
  startSectionId_of (before_hash url +:+ String "#" id)
  = if String.eqb id "" then "start" else id.
Proof.
  unfold startSectionId_of. now rewrite slice1_location_hash, fragment_replace.
Qed.

Lemma location_search_replace url id :
  location_search (before_hash url +:+ String "#" id) = location_search url.
Proof. unfold location_search. now rewrite before_hash_replace. Qed.

End UrlMore.

Section SessionFacts.
Context {B : Browser} {E : StoryEngine}.

Lemma same_document_refl w : same_document w w.
Proof. unfold same_document. repeat split; reflexivity. Qed.

Lemma same_document_trans w1 w2 w3 :
  same_document w1 w2 -> same_document w2 w3 -> same_document w1 w3.
Proof.
  unfold same_document.
  intros (A1 & A2 & A3 & A4 & A5 & A6 & A7) (C1 & C2 & C3 & C4 & C5 & C6 & C7).
  repeat split; try congruence.
  intros key Hkey. rewrite C7, A7 by assumption. reflexivity.
Qed.

(** What [gotoSection] leaves alone, however it ends. *)
Lemma gotoSection_frame id w :
  same_document w (world_after (gotoSection id w))
  /\ confirmDialogOpen (env (world_after (gotoSection id w))) = confirmDialogOpen (env w)
  /\ _confirmResolve (app (world_after (gotoSection id w))) = _confirmResolve (app w)
  /\ notifyDialogOpen (env (world_after (gotoSection id w))) = notifyDialogOpen (env w)
  /\ notifyMsg (app (world_after (gotoSection id w))) = notifyMsg (app w)
  /\ confirmMsg (app (world_after (gotoSection id w))) = confirmMsg (app w)
  /\ (Strings.count_newlines (view_text (section (app w))) = 0 ->
      Strings.count_newlines
        (view_text (section (app (world_after (gotoSection id w))))) = 0).
Proof.
  unfold gotoSection, same_document.
  destruct (String.eqb id "restart"); simpl.
  { repeat split; try reflexivity; try (intros Hc; exact Hc).
    intros key Hkey. apply lookup_delete_ne. congruence. }
  destruct (getSection (story w) id) as [sec|]; simpl;
    [|repeat split; try reflexivity; intros Hc; exact Hc].
  destruct (visit sec (story w)) as [st [e|]]; simpl;
    [repeat split; try reflexivity; intros Hc; exact Hc|].
  destruct (assign_state_frame (getState st) (set_story st w))
    as (Henv & _ & _ & _ & Ht & _ & Hl & Hs & Hw & Hnm & Hcm & Hcr).
  rewrite Henv, Ht, Hl, Hs, Hw, Hnm, Hcm, Hcr. simpl.
  rewrite before_hash_replace.
  repeat split; try reflexivity.
  intros _; apply StringsFacts.newlineToBr_clean.
Qed.

(** The microtasks keep the document, the dialogs and the texts shown. *)
Lemma runMicrotasks_invariants w :
  same_document w (runMicrotasks w)
  /\ (confirm_closed w -> confirm_closed (runMicrotasks w))
  /\ (display_clean w -> display_clean (runMicrotasks w)).
Proof.
  unfold runMicrotasks, same_document, confirm_closed, display_clean.
  destruct (statePending (app w)) as [v|]; simpl.
  - split; [|split; intros H; exact H].
    repeat split; try reflexivity.
    intros key Hkey. apply lookup_insert_ne. congruence.
  - split; [|split; intros H; exact H]. repeat split; reflexivity.
Qed.

(** What the effects of an option leave alone. *)
Lemma takeOption_effects_frame result w :
  same_document w (world_of (takeOption_effects result w))
  /\ confirmDialogOpen (env (world_of (takeOption_effects result w)))
     = confirmDialogOpen (env w)
  /\ _confirmResolve (app (world_of (takeOption_effects result w)))
     = _confirmResolve (app w)
  /\ confirmMsg (app (world_of (takeOption_effects result w))) = confirmMsg (app w)
  /\ (Strings.count_newlines (view_text (section (app w))) = 0 ->
      Strings.count_newlines (notifyMsg (app w)) = 0 ->
      Strings.count_newlines
        (view_text (section (app (world_of (takeOption_effects result w))))) = 0
      /\ Strings.count_newlines
           (notifyMsg (app (world_of (takeOption_effects result w)))) = 0).
Proof.
  unfold takeOption_effects.
  assert (Hmoved : forall moved : Completion,
            (same_document w (world_after moved)
             /\ confirmDialogOpen (env (world_after moved)) = confirmDialogOpen (env w)
             /\ _confirmResolve (app (world_after moved)) = _confirmResolve (app w)
             /\ notifyDialogOpen (env (world_after moved)) = notifyDialogOpen (env w)
             /\ notifyMsg (app (world_after moved)) = notifyMsg (app w)
             /\ confirmMsg (app (world_after moved)) = confirmMsg (app w)
             /\ (Strings.count_newlines (view_text (section (app w))) = 0 ->
                 Strings.count_newlines
                   (view_text (section (app (world_after moved)))) = 0)) ->
            let a := match moved with
                     | Abrupt w' e => Rejected w' e
                     | Normal w' =>
                         match truthy (Result.notifyMsg result) with
                         | Some msg => Done (notify msg w')
                         | None => Done w'
                         end
                     end in
            same_document w (world_of a)
            /\ confirmDialogOpen (env (world_of a)) = confirmDialogOpen (env w)
            /\ _confirmResolve (app (world_of a)) = _confirmResolve (app w)
            /\ confirmMsg (app (world_of a)) = confirmMsg (app w)
            /\ (Strings.count_newlines (view_text (section (app w))) = 0 ->
                Strings.count_newlines (notifyMsg (app w)) = 0 ->
                Strings.count_newlines (view_text (section (app (world_of a)))) = 0
                /\ Strings.count_newlines (notifyMsg (app (world_of a))) = 0)).
  { intros moved (Hdoc & Hcd & Hcr & Hnd & Hnm & Hcm & Htext).
    destruct moved as [w'|w' e]; simpl in *.
    - destruct (truthy (Result.notifyMsg result)) as [msg|]; simpl.
      + repeat split; try assumption; try apply Hdoc.
        * now apply Htext.
        * apply StringsFacts.newlineToBr_clean.
      + repeat split; try assumption; try apply Hdoc.
        * now apply Htext.
        * now rewrite Hnm.
    - repeat split; try assumption; try apply Hdoc.
      + now apply Htext.
      + now rewrite Hnm. }
  destruct (truthy (Result.nextSectionId result)) as [next|].
  - apply Hmoved, gotoSection_frame.
  - apply (Hmoved (Normal w)). simpl.
    split; [apply same_document_refl|]. repeat split; try reflexivity. tauto.
Qed.

End SessionFacts.

Section MethodsMore.
Context {B : Browser} {E : StoryEngine}.

Lemma location_search_same url url' :
  before_hash url' = before_hash url -> location_search url' = location_search url.
Proof. unfold location_search. now intros ->. Qed.


Lemma tab_or_newline_encoded c :
  is_tab_or_newline c = true -> in_fragment_encode_set c = true.
Proof.
  unfold is_tab_or_newline, in_fragment_encode_set. cbv zeta.
  intros H. apply orb_true_iff in H as [H|H];
    [apply orb_true_iff in H as [H|H]|];
    apply Nat.eqb_eq in H; rewrite H; reflexivity.
Qed.

Lemma c0_or_space_encoded c :
  is_c0_or_space c = true -> in_fragment_encode_set c = true.
Proof.
  unfold is_c0_or_space, in_fragment_encode_set. cbv zeta.
  intros ->. reflexivity.
Qed.

Lemma encode_chars_safe s : fragment_safe s = true -> encode_chars s = s.
Proof.
  induction s as [|c s IH]; simpl; [reflexivity|].
  intros H. apply andb_prop in H as [Hc Hs]. apply negb_true_iff in Hc.
  destruct (is_tab_or_newline c) eqn:Ht.
  - apply tab_or_newline_encoded in Ht. congruence.
  - now rewrite Hc, IH.
Qed.

Lemma strip_trailing_safe s : fragment_safe s = true -> strip_trailing s = s.
Proof.
  induction s as [|c s IH]; simpl; [reflexivity|].
  intros H. apply andb_prop in H as [Hc Hs]. apply negb_true_iff in Hc.
  rewrite IH by assumption.
  destruct s; [|reflexivity].
  destruct (is_c0_or_space c) eqn:H0; [|reflexivity].
  apply c0_or_space_encoded in H0. congruence.
Qed.

(** A text of safe characters is its own fragment. *)
Lemma encode_fragment_safe s : fragment_safe s = true -> encode_fragment s = s.
Proof.
  intros H. unfold encode_fragment.
  now rewrite strip_trailing_safe, encode_chars_safe.
Qed.

(** What reading the saved state leaves alone. *)
Lemma loadSavedState_frame w :
  app (loadSavedState w) = app w
  /\ localStorage (env (loadSavedState w)) = localStorage (env w)
  /\ href (env (loadSavedState w)) = href (env w)
  /\ navigation (env (loadSavedState w)) = navigation (env w)
  /\ documentTitle (env (loadSavedState w)) = documentTitle (env w)
  /\ confirmDialogOpen (env (loadSavedState w)) = confirmDialogOpen (env w).
Proof.
  unfold loadSavedState.
  destruct (truthy (localStorage (env w) !! "codex_state")) as [saved|];
    [|repeat split; reflexivity].
  destruct (JSON_parse saved) as [obj|]; [|repeat split; reflexivity].
  destruct (setState obj (story w)) as [st [e|]]; repeat split; reflexivity.
Qed.

(** [init] of a loaded document, once the story is parsed. *)
Lemma init_launch url storage storyUrl st0 :
  truthy (URLSearchParams_get (location_search url) "story") = Some storyUrl ->
  Story_parse storyUrl = inr st0 ->
  init (loadPage url storage)
  = launch (startSectionId_of url)
      (let w0 := mkWorld freshApp
                   (mkEnv storage url None "" [ConsoleLog ("Hello " +:+ storyUrl)]
                      false false) st0 in
       if String.eqb (startSectionId_of url) "start"
       then set_env (removeItem "codex_state") w0
       else loadSavedState w0).
Proof. intros Hurl Hparse. unfold init. simpl. now rewrite Hurl, Hparse. Qed.

(** X5: a confirmation is resolved once: answering the dialog opened by
    [confirm] closes it, clears the stored resolver and delivers the answer;
    a further call of [confirmResult], or a call when nothing is pending,
    delivers nothing and changes nothing but the (closed) dialog. *)
Theorem confirm_resolves_once (msg : string) (w : World) (first second : bool) :
  let resumed := fst (confirmResult first (confirm msg w)) in
  snd (confirmResult first (confirm msg w)) = Some first
  /\ confirm_closed resumed
  /\ confirmResult second resumed = (resumed, None)
  /\ (_confirmResolve (app w) = false ->
      confirmResult second w = (set_env (set_confirmDialogOpen false) w, None)).
Proof.
  intros resumed. split; [reflexivity|]. split; [split; reflexivity|].
  split.
  - unfold resumed. rewrite confirmResult_confirm. reflexivity.
  - intros Hnone. unfold confirmResult. simpl. now rewrite Hnone.
Qed.


(** X7: save and reload. In a session whose watcher is registered, after a
    navigation that succeeds to a section other than 'start' whose id a
    fragment keeps as it is, and whose visit leaves a state that differs
    from the one shown before, the microtasks save that state; a reload of
    the page (same story, the blob written is parsed back by [JSON.parse])
    gives it to [setState] of the freshly parsed story and launches the
    story at the same section. *)
Theorem reload_resumes
  (sectionId : string) (w : World) (sec : SectionT) (st : StoryT)
  (storyUrl : string) (st0 : StoryT) :
  stateWatched (app w) = true ->
  fragment_safe sectionId = true ->
  sectionId <> "restart" -> sectionId <> "start" -> sectionId <> "" ->
  getSection (story w) sectionId = Some sec ->
  visit sec (story w) = (st, None) ->
  Object_is (getState st) (state (app w)) = false ->
  truthy (URLSearchParams_get (location_search (href (env w))) "story")
    = Some storyUrl ->
  Story_parse storyUrl = inr st0 ->
  JSON_stringify (getState st) <> "" ->
  JSON_parse (JSON_stringify (getState st)) = Some (getState st) ->
  exists w' w0,
    gotoSection sectionId w = Normal w'
    /\ localStorage (env (runMicrotasks w')) !! "codex_state"
       = Some (JSON_stringify (getState st))
    /\ init (loadPage (href (env (runMicrotasks w')))
               (localStorage (env (runMicrotasks w'))))
       = launch sectionId (loadSavedState w0)
    /\ story w0 = st0
    /\ story (loadSavedState w0) = fst (setState (getState st) st0).
Proof.
  intros Hw Hsafe Hid Hstart Hempty Hsec Hvisit Hchanged Hurl Hparse Hne Hjson.
  rewrite (gotoSection_known sectionId w sec Hid Hsec), Hvisit.
  eexists. eexists. split; [reflexivity|].
  destruct (assign_state_frame (getState st) (set_story st w))
    as (Henv & _ & _ & Hpend & _).
  simpl in Hpend. rewrite Hw, Hchanged in Hpend. simpl in Hpend.
  match goal with
  | |- context [runMicrotasks ?w1] =>
      destruct (runMicrotasks_frame w1) as (_ & _ & Hls & Hhref & _);
      simpl in Hls, Hhref; rewrite Hpend, Henv in Hls; rewrite Henv in Hhref;
      simpl in Hls, Hhref; rewrite Hls, Hhref
  end.
  rewrite (encode_fragment_safe sectionId Hsafe).
  split; [apply lookup_insert_eq|].
  split.
  { rewrite (init_launch _ _ storyUrl st0); cycle 1.
    - now rewrite location_search_replace.
    - exact Hparse.
    - rewrite startSectionId_replace.
      rewrite (proj2 (String.eqb_neq sectionId "") Hempty).
      rewrite (proj2 (String.eqb_neq sectionId "start") Hstart).
      reflexivity. }
  split; [reflexivity|].
  unfold loadSavedState. simpl. rewrite lookup_insert_eq. simpl.
  rewrite (proj2 (String.eqb_neq _ "") Hne), Hjson.
  destruct (setState (getState st) st0) as [st' [e|]]; reflexivity.
Qed.

(** X8: a reload on the section 'start' starts over. After a navigation
    that succeeds to 'start' the state is saved like on any section (when
    the watcher is registered and the state differs from the one shown
    before), but the [init] of a reload deletes whatever is saved and
    launches the story as parsed. *)
Theorem reload_at_start_discards
  (w : World) (sec : SectionT) (st : StoryT) (storyUrl : string) (st0 : StoryT) :
  getSection (story w) "start" = Some sec ->
  visit sec (story w) = (st, None) ->
  truthy (URLSearchParams_get (location_search (href (env w))) "story")
    = Some storyUrl ->
  Story_parse storyUrl = inr st0 ->
  exists w' w0,
    gotoSection "start" w = Normal w'
    /\ (stateWatched (app w) = true ->
        Object_is (getState st) (state (app w)) = false ->
        localStorage (env (runMicrotasks w')) !! "codex_state"
        = Some (JSON_stringify (getState st)))
    /\ init (loadPage (href (env (runMicrotasks w')))
               (localStorage (env (runMicrotasks w'))))
       = launch "start" w0
    /\ story w0 = st0
    /\ localStorage (env w0) !! "codex_state" = None.
Proof.
  intros Hsec Hvisit Hurl Hparse.
  assert (Hid : "start" <> "restart") by discriminate.
  rewrite (gotoSection_known "start" w sec Hid Hsec), Hvisit.
  eexists. eexists. split; [reflexivity|].
  destruct (assign_state_frame (getState st) (set_story st w))
    as (Henv & _ & _ & Hpend & _).
  simpl in Hpend.
  match goal with
  | |- context [runMicrotasks ?w1] =>
      destruct (runMicrotasks_frame w1) as (_ & _ & Hls & Hhref & _);
      simpl in Hls, Hhref; rewrite Hpend, Henv in Hls; rewrite Henv in Hhref;
      simpl in Hls, Hhref; rewrite Hhref
  end.
  split.
  { intros Hw Hchanged. rewrite Hls, Hw, Hchanged. simpl. apply lookup_insert_eq. }
  split.
  { rewrite (init_launch _ _ storyUrl st0); cycle 1.
    - now rewrite location_search_replace.
    - exact Hparse.
    - rewrite startSectionId_replace. reflexivity. }
  split; [reflexivity|].
  simpl. apply lookup_delete_eq.
Qed.


(** X10: how [init] can end. Without a story URL or with a story that does
    not load, the application state, the saved state and the URL are left as
    they were; when the first navigation throws, the page is not marked
    loaded and no watcher is registered; when [init] completes, the page is
    marked loaded, the watcher is registered and the document title is the
    title shown. *)
Theorem init_outcome (p : Page) :
  match init p with
  | NoStoryUrl p' | ParseRejected p' _ =>
      page_app p' = page_app p
      /\ localStorage (page_env p') = localStorage (page_env p)
      /\ href (page_env p') = href (page_env p)
      /\ navigation (page_env p') = navigation (page_env p)
  | SectionThrew w _ =>
      loaded (app w) = loaded (page_app p)
      /\ stateWatched (app w) = stateWatched (page_app p)
  | Started w =>
      loaded (app w) = true
      /\ stateWatched (app w) = true
      /\ title (app w) = documentTitle (env w)
  end.
Proof.
  unfold init.
  destruct (truthy (URLSearchParams_get (location_search (href (page_env p))) "story"))
    as [storyUrl|]; [|repeat split; reflexivity].
  destruct (Story_parse storyUrl) as [e|st0]; [repeat split; reflexivity|].
  cbv zeta.
  match goal with
  | |- context [launch _ ?w] => set (w1 := w)
  end.
  assert (Happ : app w1 = page_app p).
  { unfold w1. destruct (String.eqb _ "start"); [reflexivity|].
    match goal with
    | |- app (loadSavedState ?w) = _ =>
        now destruct (loadSavedState_frame w) as (-> & _)
    end. }
  unfold launch.
  match goal with
  | |- context [gotoSection ?id ?w3] =>
      destruct (gotoSection_frame id w3) as ((Ht & Hl & _ & Hw & Hd & _) & _);
      destruct (gotoSection id w3) as [w4|w4 e]; simpl in *
  end.
  - split; [reflexivity|]. split; [reflexivity|]. now rewrite Ht, Hd.
  - rewrite Hl, Hw, Happ. split; reflexivity.
Qed.

(** X11: [takeOption] waits for the user exactly when [execute] returns a
    result with a non-empty confirmation message; when [execute] throws,
    the promise is rejected with nothing but the story changed. *)
Theorem takeOption_suspends_iff (option : OptionT) (w : World) :
  (is_suspended (takeOption option w) = true
   <-> exists st result msg,
         execute option (story w) = (st, inr result)
         /\ truthy (Result.confirmMsg result) = Some msg)
  /\ (forall st e, execute option (story w) = (st, inl e) ->
        takeOption option w = Rejected (set_story st w) e).
Proof.
  unfold takeOption. destruct (execute option (story w)) as [st [e|result]].
  - split; [|intros ? ? [= <- <-]; reflexivity].
    split; [discriminate|]. intros (? & ? & ? & [=] & _).
  - split; [|intros ? ? [=]].
    destruct (truthy (Result.confirmMsg result)) as [msg|] eqn:Hmsg.
    + split; [|reflexivity]. intros _. now exists st, result, msg.
    + split.
      * unfold takeOption_effects.
        destruct (truthy (Result.nextSectionId result)) as [next|].
        -- destruct (gotoSection next (set_story st w)); [|discriminate].
           destruct (truthy (Result.notifyMsg result)); discriminate.
        -- destruct (truthy (Result.notifyMsg result)); discriminate.
      * intros (? & ? & ? & [= <- <-] & Hm). congruence.
Qed.

(** X12: an option without next section is not saved. When the result of
    [execute] names no next section, [takeOption] completes with the story
    as [execute] left it, but the state shown by the application and the
    saved state are not refreshed: they are what they were, also when the
    microtasks have run. *)
Theorem takeOption_keeps_state
  (option : OptionT) (w : World) (st : StoryT) (result : Result.t) (confirmed : bool) :
  execute option (story w) = (st, inr result) ->
  truthy (Result.nextSectionId result) = None ->
  exists final,
    answer confirmed (takeOption option w) = Done final
    /\ story final = st
    /\ state (app final) = state (app w)
    /\ localStorage (env final) = localStorage (env w)
    /\ console (env final) = console (env w)
    /\ statePending (app final) = statePending (app w)
    /\ localStorage (env (runMicrotasks final)) = localStorage (env (runMicrotasks w)).
Proof.
  intros Hexec Hnext. unfold takeOption. rewrite Hexec.
  destruct (truthy (Result.confirmMsg result)) as [msg|].
  - unfold answer. rewrite confirmResult_confirm.
    unfold takeOption_effects. rewrite Hnext.
    destruct (truthy (Result.notifyMsg result)); eexists;
      (split; [reflexivity|]); repeat split; try reflexivity;
      rewrite !(proj1 (proj2 (proj2 (runMicrotasks_frame _)))); reflexivity.
  - unfold takeOption_effects. rewrite Hnext.
    destruct (truthy (Result.notifyMsg result)); eexists;
      (split; [reflexivity|]); repeat split; try reflexivity;
      rewrite !(proj1 (proj2 (proj2 (runMicrotasks_frame _)))); reflexivity.
Qed.

(** X13: an event never navigates. However the confirmation is answered and
    however the handler ends, [triggerEvent] settles with the section shown,
    the URL and the pending navigation it started with. *)
Theorem triggerEvent_never_navigates
  (msg eventId : string) (args : list string) (w : World) (confirmed : bool) :
  is_suspended (answer confirmed (triggerEvent msg eventId args w)) = false
  /\ section (app (world_of (answer confirmed (triggerEvent msg eventId args w))))
     = section (app w)
  /\ href (env (world_of (answer confirmed (triggerEvent msg eventId args w))))
     = href (env w)
  /\ navigation (env (world_of (answer confirmed (triggerEvent msg eventId args w))))
     = navigation (env w).
Proof.
  unfold triggerEvent, answer. rewrite confirmResult_confirm.
  destruct confirmed; simpl; [|repeat split; reflexivity].
  destruct (trigger eventId args (story w)) as [st [e|message]]; simpl;
    [repeat split; reflexivity|].
  unfold assign_state. simpl.
  destruct (stateWatched (app w) && negb (Object_is (getState st) (state (app w))));
    repeat split; reflexivity.
Qed.

(** X14: an accepted event is saved when it changes the state. In a
    session whose watcher is registered, when the handler returns its
    message, the state shown is that of the story after the handler, the
    message is notified with its newlines as '<br/>' and no confirmation is
    pending; nothing is written at once, and when the microtasks run the
    saved state becomes that of the story after the handler if it differs
    from the state shown before, and otherwise is what it would have been
    without the event. *)
Theorem triggerEvent_saves_state
  (msg eventId : string) (args : list string) (w : World)
  (st : StoryT) (message : string) :
  stateWatched (app w) = true ->
  trigger eventId args (story w) = (st, inr message) ->
  exists final,
    answer true (triggerEvent msg eventId args w) = Done final
    /\ story final = st
    /\ state (app final) = getState st
    /\ localStorage (env final) = localStorage (env w)
    /\ localStorage (env (runMicrotasks final))
       = (if Object_is (getState st) (state (app w))
          then localStorage (env (runMicrotasks w))
          else <["codex_state" := JSON_stringify (getState st)]> (localStorage (env w)))
    /\ notifyMsg (app final) = Strings.newlineToBr message
    /\ notifyDialogOpen (env final) = true
    /\ confirm_closed final.
Proof.
  intros Hw Htrigger. unfold triggerEvent, answer. rewrite confirmResult_confirm.
  simpl. rewrite Htrigger. eexists. split; [reflexivity|].
  rewrite !(proj1 (proj2 (proj2 (runMicrotasks_frame _)))).
  unfold assign_state. simpl. rewrite Hw. simpl.
  destruct (Object_is (getState st) (state (app w))); simpl;
    repeat split; reflexivity.
Qed.

End MethodsMore.

Section SessionInvariants.
Context {B : Browser} {E : StoryEngine}.

(** The effects of an option, started in a world [w1] that differs from [w]
    in the story and the confirmation only. *)
Lemma takeOption_effects_invariants result w w1 :
  same_document w w1 ->
  section (app w1) = section (app w) ->
  notifyMsg (app w1) = notifyMsg (app w) ->
  (confirm_closed w -> confirm_closed w1) ->
  (display_clean w -> Strings.count_newlines (confirmMsg (app w1)) = 0) ->
  same_document w (world_of (takeOption_effects result w1))
  /\ (confirm_closed w -> confirm_closed (world_of (takeOption_effects result w1)))
  /\ (display_clean w -> display_clean (world_of (takeOption_effects result w1))).
Proof.
  intros Hdoc Hsec Hnm Hclosed Hcm.
  destruct (takeOption_effects_frame result w1) as (Fdoc & Fcd & Fcr & Fcm & Fclean).
  split; [exact (same_document_trans _ _ _ Hdoc Fdoc)|]. split.
  - intros Hc. destruct (Hclosed Hc) as [H1 H2].
    split; [now rewrite Fcd|now rewrite Fcr].
  - intros (Ht & Hn & Hc).
    destruct Fclean as [F1 F2]; [now rewrite Hsec|now rewrite Hnm|].
    split; [exact F1|]. split; [exact F2|].
    rewrite Fcm. apply Hcm. now repeat split.
Qed.

(** The effects of an option never wait. *)
Lemma answer_takeOption_effects confirmed result w :
  answer confirmed (takeOption_effects result w) = takeOption_effects result w.
Proof.
  unfold takeOption_effects.
  destruct (truthy (Result.nextSectionId result)) as [next|];
    [destruct (gotoSection next w)|];
    try destruct (truthy (Result.notifyMsg result)); reflexivity.
Qed.

Ltac same_document_by_computation :=
  unfold same_document; simpl; repeat split; reflexivity.

Lemma action_invariants a w :
  let settled :=
    match a with
    | Choose option confirmed => world_of (answer confirmed (takeOption option w))
    | Trigger msg eventId args confirmed =>
        world_of (answer confirmed (triggerEvent msg eventId args w))
    end in
  same_document w settled
  /\ (confirm_closed w -> confirm_closed settled)
  /\ (display_clean w -> display_clean settled).
Proof.
  destruct a as [option confirmed|msg eventId args confirmed]; cbv zeta.
  - unfold takeOption.
    destruct (execute option (story w)) as [st [e|result]].
    + simpl. split; [same_document_by_computation|]. split; intros H; exact H.
    + destruct (truthy (Result.confirmMsg result)) as [msg|].
      * unfold answer. rewrite confirmResult_confirm.
        apply takeOption_effects_invariants; try reflexivity.
        -- same_document_by_computation.
        -- intros _. split; reflexivity.
        -- intros _. apply StringsFacts.newlineToBr_clean.
      * rewrite answer_takeOption_effects.
        apply takeOption_effects_invariants; try reflexivity.
        -- same_document_by_computation.
        -- intros H; exact H.
        -- intros (_ & _ & H). exact H.
  - unfold triggerEvent, answer. rewrite confirmResult_confirm.
    assert (Hclean : forall m, Strings.count_newlines (Strings.newlineToBr m) = 0)
      by apply StringsFacts.newlineToBr_clean.
    destruct confirmed; simpl.
    + destruct (trigger eventId args (story w)) as [st [e|message]]; simpl.
      * split; [same_document_by_computation|].
        split; [intros _; split; reflexivity|].
        intros (Ht & Hn & _). repeat split; [exact Ht|exact Hn|apply Hclean].
      * unfold assign_state. simpl.
        destruct (stateWatched (app w)
                  && negb (Object_is (getState st) (state (app w)))); simpl.
        -- split; [same_document_by_computation|].
           split; [intros _; split; reflexivity|].
           intros (Ht & _ & _). repeat split; [exact Ht|apply Hclean|apply Hclean].
        -- split; [same_document_by_computation|].
           split; [intros _; split; reflexivity|].
           intros (Ht & _ & _). repeat split; [exact Ht|apply Hclean|apply Hclean].
    + split; [same_document_by_computation|].
      split; [intros _; split; reflexivity|].
      intros (Ht & Hn & _). repeat split; [exact Ht|exact Hn|apply Hclean].
Qed.

Lemma perform_invariants a w :
  same_document w (perform a w)
  /\ (confirm_closed w -> confirm_closed (perform a w))
  /\ (display_clean w -> display_clean (perform a w)).
Proof.
  unfold perform.
  destruct (action_invariants a w) as (A1 & A2 & A3). cbv zeta in A1, A2, A3.
  match goal with
  | |- context [runMicrotasks ?settled] =>
      destruct (runMicrotasks_invariants settled) as (M1 & M2 & M3)
  end.
  split; [exact (same_document_trans _ _ _ A1 M1)|].
  split; intros H; [apply M2, A2, H|apply M3, A3, H].
Qed.

Lemma session_invariants actions : forall w,
  same_document w (session_after actions w)
  /\ (confirm_closed w -> confirm_closed (session_after actions w))
  /\ (display_clean w -> display_clean (session_after actions w)).
Proof.
  induction actions as [|a actions IH]; intros w.
  - split; [apply same_document_refl|]. split; intros H; exact H.
  - change (session_after (a :: actions) w)
      with (session_after actions (perform a w)).
    destruct (perform_invariants a w) as (P1 & P2 & P3).
    destruct (IH (perform a w)) as (I1 & I2 & I3).
    split; [exact (same_document_trans _ _ _ P1 I1)|].
    split; intros H; [apply I2, P2, H|apply I3, P3, H].
Qed.

(** The story is launched from a loaded document. *)
Lemma init_started_invariants url storage w :
  init (loadPage url storage) = Started w ->
  loaded (app w) = true
  /\ stateWatched (app w) = true
  /\ confirm_closed w
  /\ display_clean w
  /\ before_hash (href (env w)) = before_hash url
  /\ (forall key, key <> "codex_state" ->
        localStorage (env w) !! key = storage !! key).
Proof.
  unfold init. simpl.
  destruct (truthy (URLSearchParams_get (location_search url) "story"))
    as [storyUrl|]; [|discriminate].
  destruct (Story_parse storyUrl) as [e|st0]; [discriminate|].
  match goal with
  | |- launch _ ?w = _ -> _ => set (w1 := w)
  end.
  assert (Hw1 : app w1 = freshApp
                /\ href (env w1) = url
                /\ confirmDialogOpen (env w1) = false
                /\ (forall key, key <> "codex_state" ->
                      localStorage (env w1) !! key = storage !! key)).
  { unfold w1. destruct (String.eqb _ "start").
    - repeat split; try reflexivity.
      intros key Hkey. apply lookup_delete_ne. congruence.
    - match goal with
      | |- context [loadSavedState ?w] =>
          destruct (loadSavedState_frame w) as (-> & -> & -> & _ & _ & ->)
      end.
      repeat split; reflexivity. }
  destruct Hw1 as (Happ & Hhref & Hcd & Hkeys).
  unfold launch.
  match goal with
  | |- context [gotoSection ?id ?w3] =>
      destruct (gotoSection_frame id w3)
        as ((_ & _ & _ & _ & _ & Hbh & Hk) & Fcd & Fcr & _ & Fnm & Fcm & Ftext);
      destruct (gotoSection id w3) as [w4|w4 e]; [|discriminate]
  end.
  simpl in *. rewrite Happ in *. simpl in *.
  intros [= <-]. unfold confirm_closed, display_clean. simpl.
  rewrite Fcd, Fcr, Fnm, Fcm, Hbh, Hhref, Hcd.
  repeat split; try reflexivity.
  - now apply Ftext.
  - intros key Hkey. now rewrite Hk, Hkeys.
Qed.

(** X15: whatever the user chooses, triggers and answers, and however the
    story answers, the session keeps the title, the loaded flag, the
    visibility of the sheet, the watcher, the document title, the URL up to
    its fragment (so the query string naming the story) and every entry of
    [localStorage] other than 'codex_state'. *)
Theorem session_same_document (actions : list UserAction) (w : World) :
  same_document w (session_after actions w)
  /\ location_search (href (env (session_after actions w)))
     = location_search (href (env w)).
Proof.
  destruct (session_invariants actions w) as (Hdoc & _).
  split; [exact Hdoc|]. apply location_search_same. apply Hdoc.
Qed.

(** X16: in a session started by [init] of a loaded document, after any
    sequence of actions run to completion: the page is marked loaded and
    the watcher is registered; no confirmation is pending (the dialog is
    closed and no resolver is stored); the section text, the notification
    and the confirmation message hold no newline; the query string is the
    one of the loaded URL; and the other entries of [localStorage] are those
    of the load. *)
Theorem session_from_load
  (url : string) (storage : gmap string string) (w : World)
  (actions : list UserAction) :
  init (loadPage url storage) = Started w ->
  loaded (app (session_after actions w)) = true
  /\ stateWatched (app (session_after actions w)) = true
  /\ confirm_closed (session_after actions w)
  /\ display_clean (session_after actions w)
  /\ location_search (href (env (session_after actions w))) = location_search url
  /\ (forall key, key <> "codex_state" ->
        localStorage (env (session_after actions w)) !! key = storage !! key).
Proof.
  intros Hinit.
  destruct (init_started_invariants url storage w Hinit)
    as (Hl & Hw & Hc & Hd & Hbh & Hkeys).
  destruct (session_invariants actions w)
    as ((_ & Sl & _ & Sw & _ & Sbh & Sk) & Sc & Sd).
  split; [now rewrite Sl|]. split; [now rewrite Sw|].
  split; [now apply Sc|]. split; [now apply Sd|].
  split; [apply location_search_same; now rewrite Sbh|].
  intros key Hkey. now rewrite Sk, Hkeys.
Qed.

End SessionInvariants.

(** ** The further properties on the small story *)

Module CaveMore.
Import Cave.

Lemma niceify_length_no_underscore_witness :
  is_ascii "dark_CAVE_2" = true
  /\ Strings.niceify "dark_CAVE_2" = "Dark Cave 2"
  /\ String.length (Strings.niceify "dark_CAVE_2") = 11
  /\ occurs "_" (Strings.niceify "dark_CAVE_2") = false.
Proof.
  split; [reflexivity|]. split; [reflexivity|].
  exact (StringsMore.niceify_length_no_underscore "dark_CAVE_2" eq_refl).
Defined.


(** An id with a space: the URL holds the encoded id, which is what a reload
    reads back, and the story has no section of that name. *)
Example gotoSection_encoded_id :
  exists w',
    gotoSection "dark cave" session = Normal w'
    /\ view_id (section (app w')) = "dark cave"
    /\ href (env w') = "http://localhost/sys/ff/?story=cave.yaml#dark%20cave"
    /\ startSectionId_of (href (env w')) = "dark%20cave"
    /\ getSection (story w') "dark%20cave" = None.
Proof. eexists. split; [reflexivity|]. repeat split; reflexivity. Qed.

Example encode_fragment_examples :
  encode_fragment "dark cave" = "dark%20cave"
  /\ encode_fragment (String "a" (String "010" "b  ")) = "ab"
  /\ encode_fragment ("a<b>`" +:+ String "034" EmptyString) = "a%3Cb%3E%60%22"
  /\ encode_fragment ("caf" +:+ String "195" (String "169" EmptyString))
     = "caf%C3%A9"
  /\ encode_fragment "a%20#b" = "a%20#b".
Proof. repeat split; reflexivity. Qed.

Lemma reload_resumes_witness :
  (stateWatched (app played) = true
   /\ fragment_safe "vault" = true
   /\ getSection (story played) "vault" = Some "vault"
   /\ visit "vault" (story played) = (mkPurse 115 3, None)
   /\ state (app played) = 15
   /\ localStorage (env played) !! "codex_state" = Some "15"
   /\ Story_parse "cave.yaml" = inr (mkPurse 10 0)
   /\ JSON_parse (JSON_stringify (getState (mkPurse 115 3))) = Some 115)
  /\ exists w' w0,
       gotoSection "vault" played = Normal w'
       /\ localStorage (env (runMicrotasks w')) !! "codex_state" = Some "115"
       /\ init (loadPage (href (env (runMicrotasks w')))
                  (localStorage (env (runMicrotasks w'))))
          = launch "vault" (loadSavedState w0)
       /\ story w0 = mkPurse 10 0
       /\ story (loadSavedState w0) = mkPurse 115 0.
Proof.
  split; [repeat split; reflexivity|].
  apply (reload_resumes (E:=engine) "vault" played "vault" (mkPurse 115 3)
           "cave.yaml" (mkPurse 10 0));
    try reflexivity; discriminate.
Defined.

Lemma reload_at_start_discards_witness :
  (getSection (story bought) "start" = Some "start"
   /\ visit "start" (story bought) = (mkPurse 10 3, None)
   /\ state (app bought) = 15
   /\ localStorage (env bought) !! "codex_state" = Some "15")
  /\ exists w' w0,
       gotoSection "start" bought = Normal w'
       /\ localStorage (env (runMicrotasks w')) !! "codex_state" = Some "10"
       /\ init (loadPage (href (env (runMicrotasks w')))
                  (localStorage (env (runMicrotasks w'))))
          = launch "start" w0
       /\ story w0 = mkPurse 10 0
       /\ localStorage (env w0) !! "codex_state" = None.
Proof.
  split; [repeat split; reflexivity|].
  destruct (reload_at_start_discards (E:=engine) bought "start" (mkPurse 10 3)
              "cave.yaml" (mkPurse 10 0))
    as (w' & w0 & Hgo & Hsaved & Hinit & Hstory & Hnone); try reflexivity.
  exists w', w0. split; [exact Hgo|].
  split; [apply Hsaved; reflexivity|].
  repeat split; assumption.
Defined.


Lemma takeOption_keeps_state_witness :
  (execute Buy (story played)
   = (mkPurse 10 2, inr (Result.mk (Some "Buy the lamp?") None None)))
  /\ state (app played) = 15
  /\ exists final,
       answer true (takeOption Buy played) = Done final
       /\ story final = mkPurse 10 2
       /\ state (app final) = state (app played)
       /\ localStorage (env final) = localStorage (env played)
       /\ console (env final) = console (env played)
       /\ statePending (app final) = statePending (app played)
       /\ localStorage (env (runMicrotasks final))
          = localStorage (env (runMicrotasks played)).
Proof.
  split; [reflexivity|]. split; [reflexivity|].
  apply (takeOption_keeps_state (E:=engine) Buy played (mkPurse 10 2)
           (Result.mk (Some "Buy the lamp?") None None) true); reflexivity.
Defined.

Lemma triggerEvent_saves_state_witness :
  (stateWatched (app session) = true
   /\ trigger "drink" [] (story session) = (mkPurse 11 1, inr "You feel better.")
   /\ state (app session) = 10
   /\ localStorage (env session) !! "codex_state" = None)
  /\ exists final,
       answer true (triggerEvent "Drink the potion?" "drink" [] session) = Done final
       /\ story final = mkPurse 11 1
       /\ state (app final) = 11
       /\ localStorage (env final) = localStorage (env session)
       /\ localStorage (env (runMicrotasks final))
          = <["codex_state" := "11"]> (localStorage (env session))
       /\ notifyMsg (app final) = "You feel better."
       /\ notifyDialogOpen (env final) = true
       /\ confirm_closed final.
Proof.
  split; [repeat split; reflexivity|].
  apply (triggerEvent_saves_state (E:=engine) "Drink the potion?" "drink" [] session
           (mkPurse 11 1) "You feel better."); reflexivity.
Defined.

(** An accepted event that leaves the state as it is shown saves nothing. *)
Example triggerEvent_unchanged_state :
  exists final,
    answer true (triggerEvent "Look around?" "look" [] session) = Done final
    /\ notifyMsg (app final) = "Nothing here."
    /\ localStorage (env (runMicrotasks final)) !! "codex_state" = None.
Proof. eexists. split; [reflexivity|]. split; reflexivity. Qed.

(** A session of three actions: dig and confirm, drink, decline to buy. *)
Definition three_actions : list UserAction :=
  [Choose Dig true; Trigger "Drink the potion?" "drink" [] true; Choose Buy false].

Lemma session_from_load_witness :
  init startPage = Started session
  /\ story (session_after three_actions session) = mkPurse 11 2
  /\ loaded (app (session_after three_actions session)) = true
  /\ stateWatched (app (session_after three_actions session)) = true
  /\ confirm_closed (session_after three_actions session)
  /\ display_clean (session_after three_actions session)
  /\ location_search (href (env (session_after three_actions session)))
     = "?story=cave.yaml"
  /\ (forall key, key <> "codex_state" ->
        localStorage (env (session_after three_actions session)) !! key
        = ({["codex_state" := "42"]} : gmap string string) !! key).
Proof.
  split; [reflexivity|]. split; [reflexivity|].
  apply (session_from_load (E:=engine) "http://localhost/sys/ff/?story=cave.yaml"
           {["codex_state" := "42"]} session three_actions).
  reflexivity.
Defined.

End CaveMore.
